(** * luffy: a button-driven audio player for a Raspberry Pi display HAT

    Shallow embedding of the player scripts [luffy03.py] (VLC engine,
    callbacks run the handlers directly), [luffy06.py] (VLC engine, event
    queue, lock, refresh loop) and [luffy01.py] (one player subprocess per
    track), followed by the properties of the playback controller.

    Python objects are records, attribute assignments are record updates
    threaded through a state monad, and a Python exception is an outcome
    of that monad which keeps the attribute writes made before the raise. *)

From Stdlib Require Import ZArith List String Ascii Bool Lia.
Import ListNotations.

Local Open Scope Z_scope.

(** ** Exceptions, outcomes and the handler monad *)

(** The calls into python-vlc made by the scripts.  [OldEventManager] is
    the [event_manager()] of the media being replaced, [EventManager] that
    of the player or of the new media.  [GetPosition] and [GetLength] are
    asked by [update_display] for the position line. *)
Inductive vlc_call :=
| MediaNew | SetMedia | GetMedia | AudioSetVolume | Play | Pause | Stop
| EventManager | EventAttach | OldEventManager | EventDetach | MediaRelease
| GetPosition | GetLength.

(** Which engine calls raise while one handler runs: one answer per call.
    The one call a handler can come to twice is [get_media]: luffy03's
    [toggle_playback] asks it first and the [update_display] that follows
    asks it again; both get the same answer.  The engine is what can
    refuse: drawing into the image, sending it to the panel and reading a
    file's tags for the album art are taken to succeed. *)
Definition faults := vlc_call -> bool.

Definition no_fault : faults := fun _ => false.

Definition vlc_call_eqb (a b : vlc_call) : bool :=
  match a, b with
  | MediaNew, MediaNew | SetMedia, SetMedia | GetMedia, GetMedia
  | AudioSetVolume, AudioSetVolume | Play, Play | Pause, Pause | Stop, Stop
  | EventManager, EventManager | EventAttach, EventAttach
  | OldEventManager, OldEventManager
  | EventDetach, EventDetach | MediaRelease, MediaRelease
  | GetPosition, GetPosition | GetLength, GetLength => true
  | _, _ => false
  end.

(** The engine fails at exactly one call. *)
Definition fault_at (c : vlc_call) : faults := fun c' => vlc_call_eqb c c'.

(** Subclasses of Python's [Exception] that the code can meet. *)
Inductive exception :=
| VlcError (c : vlc_call)
| IndexError
| ValueError
| ZeroDivisionError
| OSError
| GpioError.

(** [SystemExit] derives from [BaseException], not from [Exception]: an
    [except Exception] clause lets it through. *)
Inductive raised :=
| SystemExit (code : Z)
| Exception (e : exception).

Inductive outcome (A : Type) :=
| Return (a : A)
| Raise (r : raised).
Arguments Return {A} a.
Arguments Raise {A} r.

Definition M (S A : Type) : Type := S -> outcome A * S.

Definition ret {S A} (a : A) : M S A := fun s => (Return a, s).

Definition bind {S A B} (m : M S A) (k : A -> M S B) : M S B :=
  fun s =>
    match m s with
    | (Return a, s') => k a s'
    | (Raise r, s') => (Raise r, s')
    end.

Definition raise {S A} (r : raised) : M S A := fun s => (Raise r, s).

Definition gets {S A} (f : S -> A) : M S A := fun s => (Return (f s), s).

Definition modify {S} (f : S -> S) : M S unit := fun s => (Return tt, f s).

(** [try: body  except Exception as e: handler e]. *)
Definition try_except {S A} (body : M S A) (handler : exception -> M S A)
  : M S A :=
  fun s =>
    match body s with
    | (Raise (Exception e), s') => handler e s'
    | other => other
    end.

Declare Scope py_scope.
Delimit Scope py_scope with py.
Notation "x <- m ;; k" := (bind m (fun x => k))
  (at level 61, m at next level, right associativity) : py_scope.
Notation "m ;; k" := (bind m (fun _ => k))
  (at level 61, right associativity) : py_scope.

(** ** Python lists *)

(** [l[i]]: a negative index counts from the end, anything else out of range
    is an [IndexError] (here [None]). *)
Definition py_index {A} (l : list A) (i : Z) : option A :=
  let n := Z.of_nat (List.length l) in
  if 0 <=? i then nth_error l (Z.to_nat i)
  else if - n <=? i then nth_error l (Z.to_nat (n + i))
  else None.

(** [l.index(x)]: position of the first occurrence, [ValueError] ([None])
    when there is none. *)
Fixpoint list_index (x : Z) (l : list Z) : option nat :=
  match l with
  | [] => None
  | y :: l' => if x =? y then Some O else option_map S (list_index x l')
  end.

(** ** Paths and glob patterns *)

(** [Path(p).name] for a path that does not end in a slash: what follows
    the last slash. *)
Fixpoint after_last_slash (cur s : string) : string :=
  match s with
  | EmptyString => cur
  | String c r =>
      if Ascii.eqb c "/"%char then after_last_slash r r
      else after_last_slash cur r
  end.

Definition path_name (p : string) : string := after_last_slash p p.

Inductive glob_item :=
| Star
| Lit (c : ascii)
| Class (members : string).

Fixpoint in_class (c : ascii) (members : string) : bool :=
  match members with
  | EmptyString => false
  | String m r => Ascii.eqb c m || in_class c r
  end.

(** Match a whole file name against a pattern. *)
Fixpoint fnmatch (p : list glob_item) (name : string) {struct p} : bool :=
  match p with
  | [] => match name with EmptyString => true | _ => false end
  | Star :: p' =>
      (fix star (s : string) : bool :=
         fnmatch p' s
         || match s with
            | EmptyString => false
            | String _ r => star r
            end) name
  | Lit c :: p' =>
      match name with
      | String d r => Ascii.eqb c d && fnmatch p' r
      | EmptyString => false
      end
  | Class m :: p' =>
      match name with
      | String d r => in_class d m && fnmatch p' r
      | EmptyString => false
      end
  end.

(** [sorted] on strings. *)
Fixpoint insert_sorted (x : string) (l : list string) : list string :=
  match l with
  | [] => [x]
  | y :: l' => if String.leb x y then x :: l else y :: insert_sorted x l'
  end.

Definition sorted (l : list string) : list string :=
  fold_right insert_sorted [] l.

(** [sorted(str(f) for f in audio_dir.glob(pattern))] over the names found
    in the directory [audio_library]. *)
Definition glob_sorted (pattern : list glob_item) (names : list string)
  : list string :=
  sorted (map (fun n => ("audio_library/" ++ n)%string)
              (filter (fnmatch pattern) names)).

(** ** The log *)

Inductive level := ERROR | WARNING | INFO.

(** One constructor per [logger] call of the scripts; [logger.debug] records
    are below the configured level [INFO] and never emitted. *)
Inductive message :=
| FontNotFound
| FailedToInitializeGPIO (e : exception)
| AudioLibraryNotFound
| NoAudioFilesFound
| LoadedAudioFiles (n : nat)
| ErrorLoadingAudioFiles (e : exception)
| ErrorHandlingButtonPress (e : exception)
| StartedPlaying (file : string)
| ErrorStartingPlayback (e : exception)
| PlaybackStopped
| SwitchedToTrack (file : string)
| VolumeAdjustedTo (v : Z)
| ErrorAdjustingVolume (e : exception)
| ErrorUpdatingDisplay (e : exception)
| ErrorInMediaStateChangeHandler (e : exception)
| StartingAudioPlayer.

Record log_record := { levelname : level; msg : message }.

(** ** The host the script starts on *)

Record Host := {
  font_found : bool;
  gpio_works : bool;
  (** names in [audio_library], [None] when the directory does not exist *)
  audio_library : option (list string);
  (** what [random.randint] draws from *)
  entropy : Z
}.

(** ** What the panel is asked to show *)

Record frame := {
  track_name : string;
  green : bool;          (* track name in green when playing, red otherwise *)
  shown_volume : Z;
  time_line : bool       (* the position line is drawn *)
}.

(** ** The playback engine (python-vlc's MediaPlayer) *)

Module vlc.

Inductive State := NothingSpecial | Playing | Paused | Stopped | Ended.

Record MediaPlayer := {
  media : option string;       (* the media set on the player, by path *)
  state : State;
  audio_volume : Z;
  end_reached : nat            (* callbacks attached to MediaPlayerEndReached *)
}.

Definition media_player_new : MediaPlayer :=
  {| media := None; state := NothingSpecial; audio_volume := 100;
     end_reached := 0 |}.

Definition set_media (m : string) (p : MediaPlayer) : MediaPlayer :=
  {| media := Some m; state := state p; audio_volume := audio_volume p;
     end_reached := end_reached p |}.

Definition set_state (st : State) (p : MediaPlayer) : MediaPlayer :=
  {| media := media p; state := st; audio_volume := audio_volume p;
     end_reached := end_reached p |}.

(** [play()] starts or resumes the media set on the player. *)
Definition play (p : MediaPlayer) : MediaPlayer :=
  match media p with
  | Some _ => set_state Playing p
  | None => p
  end.

(** [pause()] toggles between playing and paused. *)
Definition pause (p : MediaPlayer) : MediaPlayer :=
  match state p with
  | Playing => set_state Paused p
  | Paused => set_state Playing p
  | _ => p
  end.

Definition stop (p : MediaPlayer) : MediaPlayer := set_state Stopped p.

Definition audio_set_volume (v : Z) (p : MediaPlayer) : MediaPlayer :=
  {| media := media p; state := state p; audio_volume := v;
     end_reached := end_reached p |}.

Definition event_attach_end_reached (p : MediaPlayer) : MediaPlayer :=
  {| media := media p; state := state p; audio_volume := audio_volume p;
     end_reached := S (end_reached p) |}.

End vlc.

(** ** Buttons and controller events *)

Inductive Button := PlayPause | Next | VolumeDown | VolumeUp.

(** BCM line of each button: A, B, X, Y of the display HAT. *)
Definition BUTTONS : list Z := [5; 6; 16; 24].
Definition LABELS : list string := ["A"; "B"; "X"; "Y"]%string.

Definition pin_of (b : Button) : Z :=
  match b with
  | PlayPause => 5
  | Next => 6
  | VolumeDown => 16
  | VolumeUp => 24
  end.

Inductive Event :=
| ButtonPressed (b : Button)
| MediaEnded.

Inductive Status := Stopped | Playing | Paused.

(** [0 <= i < len(l)]: the index names an element of the list. *)
Definition in_range {A} (l : list A) (i : Z) : Prop :=
  0 <= i < Z.of_nat (List.length l).

(** The engine answers every call of the handler. *)
Definition quiet (env : faults) : Prop := forall c, env c = false.

Definition volume_button (b : Button) : bool :=
  match b with
  | VolumeDown | VolumeUp => true
  | _ => false
  end.

(** * luffy03.py: VLC engine, handlers run inside the callbacks *)

Module Luffy03.

Record AudioPlayer := {
  audio_files : list string;
  current_track_index : Z;
  is_playing : bool;
  volume : Z;
  player : vlc.MediaPlayer;
  display : list frame;        (* frames pushed to the panel, newest first *)
  log : list log_record        (* records emitted, newest first *)
}.

Definition set_audio_files (v : list string) (s : AudioPlayer) : AudioPlayer :=
  {| audio_files := v; current_track_index := current_track_index s;
     is_playing := is_playing s; volume := volume s; player := player s;
     display := display s; log := log s |}.

Definition set_current_track_index (v : Z) (s : AudioPlayer) : AudioPlayer :=
  {| audio_files := audio_files s; current_track_index := v;
     is_playing := is_playing s; volume := volume s; player := player s;
     display := display s; log := log s |}.

Definition set_is_playing (v : bool) (s : AudioPlayer) : AudioPlayer :=
  {| audio_files := audio_files s;
     current_track_index := current_track_index s;
     is_playing := v; volume := volume s; player := player s;
     display := display s; log := log s |}.

Definition set_volume (v : Z) (s : AudioPlayer) : AudioPlayer :=
  {| audio_files := audio_files s;
     current_track_index := current_track_index s;
     is_playing := is_playing s; volume := v; player := player s;
     display := display s; log := log s |}.

Definition set_player (v : vlc.MediaPlayer) (s : AudioPlayer) : AudioPlayer :=
  {| audio_files := audio_files s;
     current_track_index := current_track_index s;
     is_playing := is_playing s; volume := volume s; player := v;
     display := display s; log := log s |}.

Definition push_frame (f : frame) (s : AudioPlayer) : AudioPlayer :=
  {| audio_files := audio_files s;
     current_track_index := current_track_index s;
     is_playing := is_playing s; volume := volume s; player := player s;
     display := f :: display s; log := log s |}.

Definition emit (l : level) (m : message) (s : AudioPlayer) : AudioPlayer :=
  {| audio_files := audio_files s;
     current_track_index := current_track_index s;
     is_playing := is_playing s; volume := volume s; player := player s;
     display := display s;
     log := {| levelname := l; msg := m |} :: log s |}.

Definition logger (l : level) (m : message) : M AudioPlayer unit :=
  modify (emit l m).

(** The status the controller is in: playing is what [is_playing] says and
    the panel shows; when not playing, [toggle_playback] tells a player
    with a media (paused, to be resumed) from one without (stopped). *)
Definition status (s : AudioPlayer) : Status :=
  if is_playing s then Playing
  else match vlc.media (player s) with
       | None => Stopped
       | Some _ => Paused
       end.

(** [is_playing] is only ever set with a media on the player. *)
Definition consistent (s : AudioPlayer) : Prop :=
  is_playing s = true -> vlc.media (player s) <> None.

(** The state the data model describes: a non-empty catalog, an index
    into it, a volume in percent. *)
Record well_formed (s : AudioPlayer) : Prop := {
  wf_index : in_range (audio_files s) (current_track_index s);
  wf_volume : 0 <= volume s <= 100;
  wf_consistent : consistent s
}.

(** [self.audio_files[self.current_track_index]]. *)
Definition current_file : M AudioPlayer string :=
  fun s =>
    match py_index (audio_files s) (current_track_index s) with
    | Some f => (Return f, s)
    | None => (Raise (Exception IndexError), s)
    end.

Section Handlers.

Variable env : faults.

(** An engine call: raises when the engine fails there, otherwise acts on
    the player. *)
Definition engine (c : vlc_call) (f : vlc.MediaPlayer -> vlc.MediaPlayer)
  : M AudioPlayer unit :=
  fun s =>
    if env c then (Raise (Exception (VlcError c)), s)
    else (Return tt, set_player (f (player s)) s).

Definition media_new (path : string) : M AudioPlayer string :=
  fun s =>
    if env MediaNew then (Raise (Exception (VlcError MediaNew)), s)
    else (Return path, s).

Definition get_media : M AudioPlayer (option string) :=
  fun s =>
    if env GetMedia then (Raise (Exception (VlcError GetMedia)), s)
    else (Return (vlc.media (player s)), s).

(** [self.player.get_position()] and [self.player.get_length()]: the
    numbers they return are not part of a frame, their raising is. *)
Definition get_position : M AudioPlayer unit :=
  fun s =>
    if env GetPosition then (Raise (Exception (VlcError GetPosition)), s)
    else (Return tt, s).

Definition get_length : M AudioPlayer unit :=
  fun s =>
    if env GetLength then (Raise (Exception (VlcError GetLength)), s)
    else (Return tt, s).

(** [if self.is_playing and self.player.get_media():] with the two
    queries of its body; [and] does not ask the engine when [is_playing]
    is false.  The result says whether the position line is drawn. *)
Definition position_line : M AudioPlayer bool :=
  (playing <- gets is_playing ;;
   if playing
   then m <- get_media ;;
        match m with
        | Some _ => get_position ;; get_length ;; ret true
        | None => ret false
        end
   else ret false)%py.

(** [update_display]: everything it does is inside its own [try], so it
    never raises; the image goes to the panel as the last step, so a
    query the engine refuses leaves the panel as it was. *)
Definition update_display : M AudioPlayer unit :=
  try_except
    (f <- current_file ;;
     timed <- position_line ;;
     modify (fun s =>
       push_frame
         {| track_name := path_name f;
            green := is_playing s;
            shown_volume := volume s;
            time_line := timed |} s))%py
    (fun e => logger ERROR (ErrorUpdatingDisplay e)).

Definition start_playback : M AudioPlayer unit :=
  try_except
    (f <- current_file ;;
     media <- media_new f ;;
     engine SetMedia (vlc.set_media media) ;;
     v <- gets volume ;;
     engine AudioSetVolume (vlc.audio_set_volume v) ;;
     engine Play vlc.play ;;
     modify (set_is_playing true) ;;
     update_display ;;
     logger INFO (StartedPlaying f) ;;
     engine EventManager (fun p => p) ;;
     engine EventAttach vlc.event_attach_end_reached)%py
    (fun e => logger ERROR (ErrorStartingPlayback e)).

Definition toggle_playback : M AudioPlayer unit :=
  (m <- get_media ;;
   match m with
   | None => start_playback
   | Some _ =>
       playing <- gets is_playing ;;
       (if playing
        then engine Pause vlc.pause ;; modify (set_is_playing false)
        else engine Play vlc.play ;; modify (set_is_playing true)) ;;
       update_display
   end)%py.

(** [len(self.audio_files)] as divisor: Python's [%] raises on zero and
    takes the sign of the divisor, as [Z.modulo] does. *)
Definition next_track : M AudioPlayer unit :=
  (i <- gets current_track_index ;;
   n <- gets (fun s => Z.of_nat (List.length (audio_files s))) ;;
   (if n =? 0 then raise (Exception ZeroDivisionError)
    else modify (set_current_track_index ((i + 1) mod n))) ;;
   playing <- gets is_playing ;;
   (if playing then start_playback else update_display) ;;
   f <- current_file ;;
   logger INFO (SwitchedToTrack f))%py.

Definition on_media_end : M AudioPlayer unit := next_track.

Definition adjust_volume (delta : Z) : M AudioPlayer unit :=
  try_except
    (v <- gets volume ;;
     modify (set_volume (Z.max 0 (Z.min 100 (v + delta)))) ;;
     v' <- gets volume ;;
     engine AudioSetVolume (vlc.audio_set_volume v') ;;
     update_display ;;
     logger INFO (VolumeAdjustedTo v'))%py
    (fun e => logger ERROR (ErrorAdjustingVolume e)).

Definition stop_playback : M AudioPlayer unit :=
  (engine Stop vlc.stop ;;
   modify (set_is_playing false) ;;
   update_display ;;
   logger INFO PlaybackStopped)%py.

(** The label lookup is outside the [try]; the dispatch is inside. *)
Definition handle_button (pin : Z) : M AudioPlayer unit :=
  match list_index pin BUTTONS with
  | None => raise (Exception ValueError)
  | Some k =>
      match nth_error LABELS k with
      | None => raise (Exception IndexError)
      | Some label =>
          try_except
            (if String.eqb label "A" then toggle_playback
             else if String.eqb label "B" then next_track
             else if String.eqb label "X" then adjust_volume (-5)
             else if String.eqb label "Y" then adjust_volume 5
             else ret tt)
            (fun e => logger ERROR (ErrorHandlingButtonPress e))
      end
  end.

(** The callback an event arrives through. *)
Definition handler (e : Event) : M AudioPlayer unit :=
  match e with
  | ButtonPressed b => handle_button (pin_of b)
  | MediaEnded => on_media_end
  end.

(** The player after the callback has run. *)
Definition step (e : Event) (s : AudioPlayer) : AudioPlayer :=
  snd (handler e s).

End Handlers.

(** A run of callbacks, each under its own engine behaviour. *)
Fixpoint steps (es : list (faults * Event)) (s : AudioPlayer) : AudioPlayer :=
  match es with
  | [] => s
  | (env, e) :: es' => steps es' (step env e s)
  end.

(** *** Start-up *)

Definition extensions : list (list glob_item) :=
  [ [Star; Lit "."; Class "mM"; Class "pP"; Lit "3"];
    [Star; Lit "."; Class "wW"; Class "aA"; Class "vV"];
    [Star; Lit "."; Class "mM"; Lit "4"; Class "aA"];
    [Star; Lit "."; Class "aA"; Class "aA"; Class "cC"] ]%char%string.

Section Startup.

Variable host : Host.

Definition setup_gpio : M AudioPlayer unit :=
  try_except
    (if gpio_works host then ret tt else raise (Exception GpioError))
    (fun e => (logger ERROR (FailedToInitializeGPIO e) ;;
               raise (SystemExit 1))%py).

(** [sys.exit(1)] inside the [try] passes the [except Exception] clause. *)
Definition load_audio_files : M AudioPlayer unit :=
  try_except
    (match audio_library host with
     | None =>
         logger ERROR AudioLibraryNotFound ;; raise (SystemExit 1)
     | Some names =>
         modify (set_audio_files []) ;;
         modify (set_audio_files
                   (flat_map (fun ext => glob_sorted ext names) extensions)) ;;
         files <- gets audio_files ;;
         match files with
         | [] => logger ERROR NoAudioFilesFound ;; raise (SystemExit 1)
         | _ => logger INFO (LoadedAudioFiles (List.length files))
         end
     end)%py
    (fun e => (logger ERROR (ErrorLoadingAudioFiles e) ;;
               raise (SystemExit 1))%py).

(** The attributes as [__init__] first sets them. *)
Definition fresh : AudioPlayer :=
  {| audio_files := []; current_track_index := 0; is_playing := false;
     volume := 50; player := vlc.media_player_new; display := []; log := [] |}.

Definition __init__ : M AudioPlayer unit :=
  ((if font_found host then ret tt else logger WARNING FontNotFound) ;;
   setup_gpio ;;
   load_audio_files)%py.

(** [run] up to [signal.pause()], where the callbacks take over.
    [is_playing] is still false, so this [update_display] asks the engine
    nothing, and what the engine would answer does not matter
    ([first_frame_03] below). *)
Definition run : M AudioPlayer unit :=
  (logger INFO StartingAudioPlayer ;;
   update_display no_fault)%py.

(** [player = AudioPlayer(); player.run()]. *)
Definition main : outcome unit * AudioPlayer :=
  (__init__ ;; run)%py fresh.

End Startup.

(** The states the player can be in: the one [main] leaves when start-up
    succeeds, and every state a callback leads to from there. *)
Inductive reachable : AudioPlayer -> Prop :=
| reachable_start host :
    fst (main host) = Return tt -> reachable (snd (main host))
| reachable_step env e s :
    reachable s -> reachable (step env e s).

End Luffy03.

(** * luffy06.py: VLC engine, event queue, lock and refresh loop *)

Module Luffy06.

(** A [vlc.Media] object: its path, the callbacks attached to its
    [MediaStateChanged] event, and whether it was released. *)
Record Media := {
  mrl : string;
  state_changed : nat;
  released : bool
}.

(** What the engine hands to [on_media_state_changed]. *)
Inductive EventType := MediaStateChanged | MediaPlayerEndReached.

Record vlc_event := { type : EventType; new_state : vlc.State }.

Record AudioPlayer := {
  event_queue : list string;   (* FIFO, head is the next item out *)
  running : bool;                (* cleared at shutdown; the loops read it *)
  player : vlc.MediaPlayer;
  is_playing : bool;
  volume : Z;
  audio_files : list string;
  current_media : option Media;
  current_track_index : Z;
  display : list frame;        (* frames pushed to the panel, newest first *)
  log : list log_record        (* records emitted, newest first *)
}.

Definition set_event_queue (v : list string) (s : AudioPlayer) : AudioPlayer :=
  {| event_queue := v; running := running s; player := player s;
     is_playing := is_playing s; volume := volume s;
     audio_files := audio_files s; current_media := current_media s;
     current_track_index := current_track_index s;
     display := display s; log := log s |}.

Definition set_player (v : vlc.MediaPlayer) (s : AudioPlayer) : AudioPlayer :=
  {| event_queue := event_queue s; running := running s; player := v;
     is_playing := is_playing s; volume := volume s;
     audio_files := audio_files s; current_media := current_media s;
     current_track_index := current_track_index s;
     display := display s; log := log s |}.

Definition set_is_playing (v : bool) (s : AudioPlayer) : AudioPlayer :=
  {| event_queue := event_queue s; running := running s; player := player s;
     is_playing := v; volume := volume s;
     audio_files := audio_files s; current_media := current_media s;
     current_track_index := current_track_index s;
     display := display s; log := log s |}.

Definition set_volume (v : Z) (s : AudioPlayer) : AudioPlayer :=
  {| event_queue := event_queue s; running := running s; player := player s;
     is_playing := is_playing s; volume := v;
     audio_files := audio_files s; current_media := current_media s;
     current_track_index := current_track_index s;
     display := display s; log := log s |}.

Definition set_audio_files (v : list string) (s : AudioPlayer) : AudioPlayer :=
  {| event_queue := event_queue s; running := running s; player := player s;
     is_playing := is_playing s; volume := volume s;
     audio_files := v; current_media := current_media s;
     current_track_index := current_track_index s;
     display := display s; log := log s |}.

Definition set_current_media (v : option Media) (s : AudioPlayer)
  : AudioPlayer :=
  {| event_queue := event_queue s; running := running s; player := player s;
     is_playing := is_playing s; volume := volume s;
     audio_files := audio_files s; current_media := v;
     current_track_index := current_track_index s;
     display := display s; log := log s |}.

Definition set_current_track_index (v : Z) (s : AudioPlayer) : AudioPlayer :=
  {| event_queue := event_queue s; running := running s; player := player s;
     is_playing := is_playing s; volume := volume s;
     audio_files := audio_files s; current_media := current_media s;
     current_track_index := v;
     display := display s; log := log s |}.

Definition push_frame (f : frame) (s : AudioPlayer) : AudioPlayer :=
  {| event_queue := event_queue s; running := running s; player := player s;
     is_playing := is_playing s; volume := volume s;
     audio_files := audio_files s; current_media := current_media s;
     current_track_index := current_track_index s;
     display := f :: display s; log := log s |}.

Definition emit (l : level) (m : message) (s : AudioPlayer) : AudioPlayer :=
  {| event_queue := event_queue s; running := running s; player := player s;
     is_playing := is_playing s; volume := volume s;
     audio_files := audio_files s; current_media := current_media s;
     current_track_index := current_track_index s;
     display := display s;
     log := {| levelname := l; msg := m |} :: log s |}.

Definition logger (l : level) (m : message) : M AudioPlayer unit :=
  modify (emit l m).

(** [self.event_queue.put(item)]: the queue is unbounded, so this never
    blocks. *)
Definition put (item : string) : M AudioPlayer unit :=
  modify (fun s => set_event_queue (event_queue s ++ [item]) s).

(** [with self.lock: body].  Handlers are taken one whole call at a time,
    which is what the lock grants those that take it. *)
Definition with_lock {A} (body : M AudioPlayer A) : M AudioPlayer A := body.

Definition status (s : AudioPlayer) : Status :=
  if is_playing s then Playing
  else match vlc.media (player s) with
       | None => Stopped
       | Some _ => Paused
       end.

Definition consistent (s : AudioPlayer) : Prop :=
  is_playing s = true -> vlc.media (player s) <> None.

Record well_formed (s : AudioPlayer) : Prop := {
  wf_index : in_range (audio_files s) (current_track_index s);
  wf_volume : 0 <= volume s <= 100;
  wf_consistent : consistent s
}.

Definition current_file : M AudioPlayer string :=
  fun s =>
    match py_index (audio_files s) (current_track_index s) with
    | Some f => (Return f, s)
    | None => (Raise (Exception IndexError), s)
    end.

Section Handlers.

Variable env : faults.

Definition engine (c : vlc_call) (f : vlc.MediaPlayer -> vlc.MediaPlayer)
  : M AudioPlayer unit :=
  fun s =>
    if env c then (Raise (Exception (VlcError c)), s)
    else (Return tt, set_player (f (player s)) s).

(** An engine call on the object [self.current_media]. *)
Definition on_current_media (c : vlc_call) (f : Media -> Media)
  : M AudioPlayer unit :=
  fun s =>
    if env c then (Raise (Exception (VlcError c)), s)
    else (Return tt, set_current_media (option_map f (current_media s)) s).

Definition media_new (path : string) : M AudioPlayer Media :=
  fun s =>
    if env MediaNew then (Raise (Exception (VlcError MediaNew)), s)
    else (Return {| mrl := path; state_changed := 0; released := false |}, s).

Definition get_media : M AudioPlayer (option string) :=
  fun s =>
    if env GetMedia then (Raise (Exception (VlcError GetMedia)), s)
    else (Return (vlc.media (player s)), s).

Definition event_detach (m : Media) : Media :=
  {| mrl := mrl m; state_changed := 0; released := released m |}.

Definition event_attach (m : Media) : Media :=
  {| mrl := mrl m; state_changed := S (state_changed m);
     released := released m |}.

Definition release (m : Media) : Media :=
  {| mrl := mrl m; state_changed := state_changed m; released := true |}.

Definition get_position : M AudioPlayer unit :=
  fun s =>
    if env GetPosition then (Raise (Exception (VlcError GetPosition)), s)
    else (Return tt, s).

Definition get_length : M AudioPlayer unit :=
  fun s =>
    if env GetLength then (Raise (Exception (VlcError GetLength)), s)
    else (Return tt, s).

(** [if self.is_playing and self.player.get_media():] with the two
    queries of its body. *)
Definition position_line : M AudioPlayer bool :=
  (playing <- gets is_playing ;;
   if playing
   then m <- get_media ;;
        match m with
        | Some _ => get_position ;; get_length ;; ret true
        | None => ret false
        end
   else ret false)%py.

(** [update_display]: the text drawn over the (optional) album art, which
    is not part of a frame.  The image goes to the panel as the last
    step of the [try]. *)
Definition update_display : M AudioPlayer unit :=
  try_except
    (f <- current_file ;;
     timed <- position_line ;;
     modify (fun s =>
       push_frame
         {| track_name := path_name f;
            green := is_playing s;
            shown_volume := volume s;
            time_line := timed |} s))%py
    (fun e => logger ERROR (ErrorUpdatingDisplay e)).

Definition start_playback : M AudioPlayer unit :=
  try_except
    (f <- current_file ;;
     old <- gets current_media ;;
     match old with
     | Some _ =>
         on_current_media OldEventManager (fun m => m) ;;
         on_current_media EventDetach event_detach ;;
         on_current_media MediaRelease release
     | None => ret tt
     end ;;
     media <- media_new f ;;
     modify (set_current_media (Some media)) ;;
     engine SetMedia (vlc.set_media (mrl media)) ;;
     on_current_media EventManager (fun m => m) ;;
     on_current_media EventAttach event_attach ;;
     v <- gets volume ;;
     engine AudioSetVolume (vlc.audio_set_volume v) ;;
     engine Play vlc.play ;;
     modify (set_is_playing true) ;;
     put "UPDATE_DISPLAY" ;;
     logger INFO (StartedPlaying f))%py
    (fun e => logger ERROR (ErrorStartingPlayback e)).

Definition toggle_playback : M AudioPlayer unit :=
  (m <- get_media ;;
   match m with
   | None => start_playback
   | Some _ =>
       playing <- gets is_playing ;;
       (if playing
        then engine Pause vlc.pause ;; modify (set_is_playing false)
        else engine Play vlc.play ;; modify (set_is_playing true)) ;;
       put "UPDATE_DISPLAY"
   end)%py.

Definition next_track : M AudioPlayer unit :=
  (i <- gets current_track_index ;;
   n <- gets (fun s => Z.of_nat (List.length (audio_files s))) ;;
   (if n =? 0 then raise (Exception ZeroDivisionError)
    else modify (set_current_track_index ((i + 1) mod n))) ;;
   playing <- gets is_playing ;;
   (if playing then start_playback else put "UPDATE_DISPLAY") ;;
   f <- current_file ;;
   logger INFO (SwitchedToTrack f))%py.

Definition adjust_volume (delta : Z) : M AudioPlayer unit :=
  try_except
    (v <- gets volume ;;
     modify (set_volume (Z.max 0 (Z.min 100 (v + delta)))) ;;
     v' <- gets volume ;;
     engine AudioSetVolume (vlc.audio_set_volume v') ;;
     put "UPDATE_DISPLAY" ;;
     logger INFO (VolumeAdjustedTo v'))%py
    (fun e => logger ERROR (ErrorAdjustingVolume e)).

Definition stop_playback : M AudioPlayer unit :=
  with_lock
    (engine Stop vlc.stop ;;
     modify (set_is_playing false) ;;
     put "UPDATE_DISPLAY" ;;
     logger INFO PlaybackStopped)%py.

(** Runs on the GPIO library's callback thread. *)
Definition handle_button (pin : Z) : M AudioPlayer unit :=
  match list_index pin BUTTONS with
  | None => raise (Exception ValueError)
  | Some k =>
      match nth_error LABELS k with
      | None => raise (Exception IndexError)
      | Some label =>
          try_except
            (with_lock
               (if String.eqb label "A" then toggle_playback
                else if String.eqb label "B" then next_track
                else if String.eqb label "X" then adjust_volume (-5)
                else if String.eqb label "Y" then adjust_volume 5
                else ret tt))
            (fun e => logger ERROR (ErrorHandlingButtonPress e))
      end
  end.

(** Runs on the engine's thread. *)
Definition on_media_state_changed (event : vlc_event) : M AudioPlayer unit :=
  try_except
    (match type event with
     | MediaStateChanged =>
         match new_state event with
         | vlc.Ended => put "MEDIA_END"
         | _ => ret tt
         end
     | _ => ret tt
     end)
    (fun e => logger ERROR (ErrorInMediaStateChangeHandler e)).

(** One turn of the [while self.running] loop of [event_handler], on its
    own thread.  [get(timeout=1.0)] on an empty queue raises [queue.Empty]
    after the wait, and the [except Exception: continue] clause swallows
    that like every other exception of the body. *)
Definition event_handler_turn : M AudioPlayer unit :=
  fun s =>
    match event_queue s with
    | [] => (Return tt, s)
    | event_type :: rest =>
        try_except
          (if String.eqb event_type "MEDIA_END" then with_lock next_track
           else if String.eqb event_type "UPDATE_DISPLAY" then update_display
           else ret tt)
          (fun _ => ret tt)
          (set_event_queue rest s)
    end.

(** One turn of the [while self.running] loop of [run], on the main
    thread, followed by [time.sleep(1)]. *)
Definition run_turn : M AudioPlayer unit :=
  (playing <- gets is_playing ;;
   if playing then put "UPDATE_DISPLAY" else ret tt)%py.

End Handlers.

(** [while self.running: body], one turn. *)
Definition while_running (body : M AudioPlayer unit) : M AudioPlayer unit :=
  fun s => if running s then body s else (Return tt, s).

(** The execution contexts and what each of them runs. *)
Inductive Context :=
| ButtonCallback (pin : Z)
| EngineNotification (event : vlc_event)
| DrainLoop
| MainLoop.

Definition activity (env : faults) (c : Context) : M AudioPlayer unit :=
  match c with
  | ButtonCallback pin => handle_button env pin
  | EngineNotification event => on_media_state_changed event
  | DrainLoop => while_running (event_handler_turn env)
  | MainLoop => while_running run_turn
  end.

Definition step (env : faults) (c : Context) (s : AudioPlayer) : AudioPlayer :=
  snd (activity env c s).

Fixpoint steps (cs : list (faults * Context)) (s : AudioPlayer) : AudioPlayer :=
  match cs with
  | [] => s
  | (env, c) :: cs' => steps cs' (step env c s)
  end.

(** *** Start-up *)

Definition extensions : list (list glob_item) :=
  [ [Star; Lit "."; Class "mM"; Class "pP"; Lit "3"];
    [Star; Lit "."; Class "wW"; Class "aA"; Class "vV"];
    [Star; Lit "."; Class "mM"; Lit "4"; Class "aA"];
    [Star; Lit "."; Class "aA"; Class "aA"; Class "cC"] ]%char%string.

Section Startup.

Variable host : Host.

(** [random.randint(a, b)]: some integer of [a..b]. *)
Definition randint (a b : Z) : Z := a + entropy host mod (b - a + 1).

Definition setup_gpio : M AudioPlayer unit :=
  try_except
    (if gpio_works host then ret tt else raise (Exception GpioError))
    (fun e => (logger ERROR (FailedToInitializeGPIO e) ;;
               raise (SystemExit 1))%py).

Definition load_audio_files : M AudioPlayer unit :=
  try_except
    (match audio_library host with
     | None =>
         logger ERROR AudioLibraryNotFound ;; raise (SystemExit 1)
     | Some names =>
         modify (set_audio_files []) ;;
         modify (set_audio_files
                   (flat_map (fun ext => glob_sorted ext names) extensions)) ;;
         files <- gets audio_files ;;
         match files with
         | [] => logger ERROR NoAudioFilesFound ;; raise (SystemExit 1)
         | _ =>
             modify (set_current_track_index
                       (randint 0 (Z.of_nat (List.length files) - 1))) ;;
             logger INFO (LoadedAudioFiles (List.length files))
         end
     end)%py
    (fun e => (logger ERROR (ErrorLoadingAudioFiles e) ;;
               raise (SystemExit 1))%py).

(** The attributes as [__init__] first sets them; [current_track_index]
    has no value until [load_audio_files] draws one. *)
Definition fresh : AudioPlayer :=
  {| event_queue := []; running := true; player := vlc.media_player_new;
     is_playing := false; volume := 50; audio_files := [];
     current_media := None; current_track_index := 0;
     display := []; log := [] |}.

(** After [load_audio_files] the event thread is started. *)
Definition __init__ : M AudioPlayer unit :=
  ((if font_found host then ret tt else logger WARNING FontNotFound) ;;
   setup_gpio ;;
   load_audio_files)%py.

(** [run] up to its loop: the first frame is drawn by the main thread.
    [is_playing] is still false, so this [update_display] asks the engine
    nothing, and what the engine would answer does not matter
    ([first_frame_06] below). *)
Definition run : M AudioPlayer unit :=
  (logger INFO StartingAudioPlayer ;;
   update_display no_fault)%py.

Definition main : outcome unit * AudioPlayer :=
  (__init__ ;; run)%py fresh.

End Startup.

Inductive reachable : AudioPlayer -> Prop :=
| reachable_start host :
    fst (main host) = Return tt -> reachable (snd (main host))
| reachable_step env c s :
    reachable s -> reachable (step env c s).

(** [s'] differs from [s] in the event queue at most. *)
Definition only_enqueued (s s' : AudioPlayer) : Prop :=
  running s' = running s
  /\ player s' = player s
  /\ is_playing s' = is_playing s
  /\ volume s' = volume s
  /\ audio_files s' = audio_files s
  /\ current_media s' = current_media s
  /\ current_track_index s' = current_track_index s
  /\ display s' = display s
  /\ log s' = log s
  /\ exists items, event_queue s' = (event_queue s ++ items)%list.

End Luffy06.

(** * luffy01.py: one player subprocess per track *)

Module Luffy01.

(** The operating-system calls of the script that can fail. *)
Inductive sys_call := Popen | Terminate | Amixer.

Definition sys_faults := sys_call -> bool.

(** [str.lower] on the ASCII letters. *)
Definition lower_char (c : ascii) : ascii :=
  if (Ascii.leb "A" c && Ascii.leb c "Z")%char
  then ascii_of_nat (nat_of_ascii c + 32)
  else c.

Fixpoint lower (s : string) : string :=
  match s with
  | EmptyString => EmptyString
  | String c r => String (lower_char c) (lower r)
  end.

(** [s.split('.')[-1]]: what follows the last dot, all of [s] without one. *)
Fixpoint after_last_dot (cur s : string) : string :=
  match s with
  | EmptyString => cur
  | String c r =>
      if Ascii.eqb c "."%char then after_last_dot r r
      else after_last_dot cur r
  end.

Fixpoint endswith (s suffix : string) : bool :=
  String.eqb s suffix
  || match s with
     | EmptyString => false
     | String _ r => endswith r suffix
     end.

(** The argument vectors built by [get_player_command]. *)
Inductive command :=
| mpg123 (scale : Z) (file_path : string)
| aplay (file_path : string).

Record AudioPlayer := {
  current_track_index : Z;
  is_playing : bool;
  volume : Z;
  audio_process : option command;   (* the running player, if any *)
  audio_files : list string;
  master : Z;                       (* the mixer's Master level, in percent *)
  display : list frame;
  log : list log_record
}.

Definition set_current_track_index (v : Z) (s : AudioPlayer) : AudioPlayer :=
  {| current_track_index := v; is_playing := is_playing s;
     volume := volume s; audio_process := audio_process s;
     audio_files := audio_files s; master := master s;
     display := display s; log := log s |}.

Definition set_is_playing (v : bool) (s : AudioPlayer) : AudioPlayer :=
  {| current_track_index := current_track_index s; is_playing := v;
     volume := volume s; audio_process := audio_process s;
     audio_files := audio_files s; master := master s;
     display := display s; log := log s |}.

Definition set_volume (v : Z) (s : AudioPlayer) : AudioPlayer :=
  {| current_track_index := current_track_index s;
     is_playing := is_playing s;
     volume := v; audio_process := audio_process s;
     audio_files := audio_files s; master := master s;
     display := display s; log := log s |}.

Definition set_audio_process (v : option command) (s : AudioPlayer)
  : AudioPlayer :=
  {| current_track_index := current_track_index s;
     is_playing := is_playing s;
     volume := volume s; audio_process := v;
     audio_files := audio_files s; master := master s;
     display := display s; log := log s |}.

Definition set_audio_files (v : list string) (s : AudioPlayer) : AudioPlayer :=
  {| current_track_index := current_track_index s;
     is_playing := is_playing s;
     volume := volume s; audio_process := audio_process s;
     audio_files := v; master := master s;
     display := display s; log := log s |}.

Definition set_master (v : Z) (s : AudioPlayer) : AudioPlayer :=
  {| current_track_index := current_track_index s;
     is_playing := is_playing s;
     volume := volume s; audio_process := audio_process s;
     audio_files := audio_files s; master := v;
     display := display s; log := log s |}.

Definition push_frame (f : frame) (s : AudioPlayer) : AudioPlayer :=
  {| current_track_index := current_track_index s;
     is_playing := is_playing s;
     volume := volume s; audio_process := audio_process s;
     audio_files := audio_files s; master := master s;
     display := f :: display s; log := log s |}.

Definition emit (l : level) (m : message) (s : AudioPlayer) : AudioPlayer :=
  {| current_track_index := current_track_index s;
     is_playing := is_playing s;
     volume := volume s; audio_process := audio_process s;
     audio_files := audio_files s; master := master s;
     display := display s;
     log := {| levelname := l; msg := m |} :: log s |}.

Definition logger (l : level) (m : message) : M AudioPlayer unit :=
  modify (emit l m).

(** This variant has no pause: a press while playing ends the process. *)
Definition status (s : AudioPlayer) : Status :=
  if is_playing s then Playing else Stopped.

Definition current_file : M AudioPlayer string :=
  fun s =>
    match py_index (audio_files s) (current_track_index s) with
    | Some f => (Return f, s)
    | None => (Raise (Exception IndexError), s)
    end.

Section Handlers.

Variable env : sys_faults.

Definition sys (c : sys_call) (f : AudioPlayer -> AudioPlayer)
  : M AudioPlayer unit :=
  fun s => if env c then (Raise (Exception OSError), s) else (Return tt, f s).

Definition get_player_command (file_path : string) : M AudioPlayer command :=
  (let ext := after_last_dot (lower file_path) (lower file_path) in
   if String.eqb ext "mp3"
   then v <- gets volume ;; ret (mpg123 v file_path)
   else ret (aplay file_path))%py.

(** This variant draws no position line. *)
Definition update_display : M AudioPlayer unit :=
  try_except
    (f <- current_file ;;
     modify (fun s =>
       push_frame
         {| track_name := path_name f; green := is_playing s;
            shown_volume := volume s; time_line := false |} s))%py
    (fun e => logger ERROR (ErrorUpdatingDisplay e)).

Definition stop_playback : M AudioPlayer unit :=
  (p <- gets audio_process ;;
   match p with
   | Some _ =>
       sys Terminate (fun s => s) ;;
       modify (set_audio_process None) ;;
       modify (set_is_playing false) ;;
       update_display ;;
       logger INFO PlaybackStopped
   | None => ret tt
   end)%py.

Definition start_playback : M AudioPlayer unit :=
  try_except
    (p <- gets audio_process ;;
     match p with Some _ => stop_playback | None => ret tt end ;;
     f <- current_file ;;
     command <- get_player_command f ;;
     sys Popen (set_audio_process (Some command)) ;;
     modify (set_is_playing true) ;;
     update_display ;;
     logger INFO (StartedPlaying f))%py
    (fun e => logger ERROR (ErrorStartingPlayback e)).

Definition toggle_playback : M AudioPlayer unit :=
  (playing <- gets is_playing ;;
   if playing then stop_playback else start_playback)%py.

Definition next_track : M AudioPlayer unit :=
  (i <- gets current_track_index ;;
   n <- gets (fun s => Z.of_nat (List.length (audio_files s))) ;;
   (if n =? 0 then raise (Exception ZeroDivisionError)
    else modify (set_current_track_index ((i + 1) mod n))) ;;
   playing <- gets is_playing ;;
   (if playing then start_playback else ret tt) ;;
   update_display ;;
   f <- current_file ;;
   logger INFO (SwitchedToTrack f))%py.

Definition adjust_volume (delta : Z) : M AudioPlayer unit :=
  try_except
    (v <- gets volume ;;
     modify (set_volume (Z.max 0 (Z.min 100 (v + delta)))) ;;
     v' <- gets volume ;;
     sys Amixer (set_master v') ;;
     playing <- gets is_playing ;;
     (if playing
      then f <- current_file ;;
           if endswith (lower f) ".mp3" then start_playback else ret tt
      else ret tt) ;;
     update_display ;;
     logger INFO (VolumeAdjustedTo v'))%py
    (fun e => logger ERROR (ErrorAdjustingVolume e)).

Definition handle_button (pin : Z) : M AudioPlayer unit :=
  match list_index pin BUTTONS with
  | None => raise (Exception ValueError)
  | Some k =>
      match nth_error LABELS k with
      | None => raise (Exception IndexError)
      | Some label =>
          try_except
            (if String.eqb label "A" then toggle_playback
             else if String.eqb label "B" then next_track
             else if String.eqb label "X" then adjust_volume (-5)
             else if String.eqb label "Y" then adjust_volume 5
             else ret tt)
            (fun e => logger ERROR (ErrorHandlingButtonPress e))
      end
  end.

(** The player after a button callback has run. *)
Definition step (b : Button) (s : AudioPlayer) : AudioPlayer :=
  snd (handle_button (pin_of b) s).

End Handlers.

End Luffy01.

(** * A concrete player: four tracks, everything else in order *)

Definition demo_host : Host :=
  {| font_found := true; gpio_works := true;
     audio_library :=
       Some ["two.mp3"; "notes.txt"; "one.MP3"; "three.wav"; "four.m4a"]%string;
     entropy := 0 |}.

Definition start03 : Luffy03.AudioPlayer := snd (Luffy03.main demo_host).

Definition start06 : Luffy06.AudioPlayer := snd (Luffy06.main demo_host).

(** Events delivered with the engine answering every call. *)
Definition calmly {E} (es : list E) : list (faults * E) :=
  map (fun e => (no_fault, e)) es.

Definition volume_event (e : Event) : bool :=
  match e with
  | ButtonPressed b => volume_button b
  | MediaEnded => false
  end.

(** The same button pressed once per engine behaviour of the list. *)
Definition presses (b : Button) (envs : list faults) : list (faults * Event) :=
  map (fun env => (env, ButtonPressed b)) envs.

Definition callbacks (b : Button) (envs : list faults)
  : list (faults * Luffy06.Context) :=
  map (fun env => (env, Luffy06.ButtonCallback (pin_of b))) envs.

(** The engine fails while the track is loaded or started: one of the
    calls [start_playback] makes on the way to [play()] raises. *)
Definition load_or_play_fails (env : faults) : bool :=
  env MediaNew || env SetMedia || env AudioSetVolume || env Play.

(** A file name one of the patterns of [load_audio_files] accepts. *)
Definition recognized (name : string) : bool :=
  existsb (fun ext => fnmatch ext name) Luffy03.extensions.

(** The catalog source is absent, or holds no recognized audio file. *)
Definition no_catalog (host : Host) : Prop :=
  match audio_library host with
  | None => True
  | Some names => forallb (fun n => negb (recognized n)) names = true
  end.

(** * Further code of the scripts: definitions *)

From Stdlib Require Import Sorted Permutation.

(** ** What the panel should be showing *)

(** The frame [update_display] draws for a state when the engine answers
    its queries, if the index names a track. *)
Definition snapshot03 (s : Luffy03.AudioPlayer) : option frame :=
  option_map
    (fun f =>
       {| track_name := path_name f;
          green := Luffy03.is_playing s;
          shown_volume := Luffy03.volume s;
          time_line :=
            Luffy03.is_playing s
            && match vlc.media (Luffy03.player s) with
               | Some _ => true
               | None => false
               end |})
    (py_index (Luffy03.audio_files s) (Luffy03.current_track_index s)).

Definition snapshot06 (s : Luffy06.AudioPlayer) : option frame :=
  option_map
    (fun f =>
       {| track_name := path_name f;
          green := Luffy06.is_playing s;
          shown_volume := Luffy06.volume s;
          time_line :=
            Luffy06.is_playing s
            && match vlc.media (Luffy06.player s) with
               | Some _ => true
               | None => false
               end |})
    (py_index (Luffy06.audio_files s) (Luffy06.current_track_index s)).

(** The two items the drain loop of luffy06 understands. *)
Definition known_item (item : string) : bool :=
  String.eqb item "MEDIA_END" || String.eqb item "UPDATE_DISPLAY".

(** ** File names and extensions *)

(** [name] is [stem.e] with [e], in lower case, one of [exts]. *)
Definition has_extension (exts : list string) (name : string) : Prop :=
  exists stem e,
    name = (stem ++ "." ++ e)%string /\ In (Luffy01.lower e) exts.

(** The path [load_audio_files] makes of a name found in the directory. *)
Definition library_path (name : string) : string :=
  ("audio_library/" ++ name)%string.

(** ** luffy01.py: start-up and runs of button presses *)

Module Luffy01Main.

(** The one pattern of this variant, ["*.[mwMW][aApP][vV3]*"]. *)
Definition pattern : list glob_item :=
  [Star; Lit "."; Class "mwMW"; Class "aApP"; Class "vV3"; Star]%char%string.

Section Startup.

Variable host : Host.

(** What the operating system does when [run] starts the first track. *)
Variable env : Luffy01.sys_faults.

(** The Master level of the mixer when the script starts. *)
Variable mixer : Z.

Definition setup_gpio : M Luffy01.AudioPlayer unit :=
  try_except
    (if gpio_works host then ret tt else raise (Exception GpioError))
    (fun e => (Luffy01.logger ERROR (FailedToInitializeGPIO e) ;;
               raise (SystemExit 1))%py).

Definition load_audio_files : M Luffy01.AudioPlayer unit :=
  try_except
    (match audio_library host with
     | None =>
         Luffy01.logger ERROR AudioLibraryNotFound ;; raise (SystemExit 1)
     | Some names =>
         modify (Luffy01.set_audio_files (glob_sorted pattern names)) ;;
         files <- gets Luffy01.audio_files ;;
         match files with
         | [] =>
             Luffy01.logger ERROR NoAudioFilesFound ;; raise (SystemExit 1)
         | _ => Luffy01.logger INFO (LoadedAudioFiles (List.length files))
         end
     end)%py
    (fun e => (Luffy01.logger ERROR (ErrorLoadingAudioFiles e) ;;
               raise (SystemExit 1))%py).

Definition fresh : Luffy01.AudioPlayer :=
  {| Luffy01.current_track_index := 0; Luffy01.is_playing := false;
     Luffy01.volume := 50; Luffy01.audio_process := None;
     Luffy01.audio_files := []; Luffy01.master := mixer;
     Luffy01.display := []; Luffy01.log := [] |}.

Definition __init__ : M Luffy01.AudioPlayer unit :=
  ((if font_found host then ret tt
    else Luffy01.logger WARNING FontNotFound) ;;
   setup_gpio ;;
   load_audio_files)%py.

(** [run] up to [signal.pause()]: this variant starts the first track by
    itself. *)
Definition run : M Luffy01.AudioPlayer unit :=
  (Luffy01.logger INFO StartingAudioPlayer ;;
   Luffy01.update_display ;;
   Luffy01.start_playback env)%py.

Definition main : outcome unit * Luffy01.AudioPlayer :=
  (__init__ ;; run)%py fresh.

End Startup.

(** A run of button callbacks, each under its own behaviour of the
    operating system. *)
Fixpoint steps (bs : list (Luffy01.sys_faults * Button))
    (s : Luffy01.AudioPlayer) : Luffy01.AudioPlayer :=
  match bs with
  | [] => s
  | (env, b) :: bs' => steps bs' (Luffy01.step env b s)
  end.

Inductive reachable : Luffy01.AudioPlayer -> Prop :=
| reachable_start host env mixer :
    fst (main host env mixer) = Return tt ->
    reachable (snd (main host env mixer))
| reachable_step env b s :
    reachable s -> reachable (Luffy01.step env b s).

(** The file a player command plays. *)
Definition played (c : Luffy01.command) : string :=
  match c with
  | Luffy01.mpg123 _ file_path => file_path
  | Luffy01.aplay file_path => file_path
  end.

(** [is_playing] says whether there is a player process. *)
Definition process_flag (s : Luffy01.AudioPlayer) : Prop :=
  Luffy01.is_playing s
  = match Luffy01.audio_process s with Some _ => true | None => false end.

(** The command [get_player_command] builds for a file at a volume. *)
Definition command_for (v : Z) (file_path : string) : Luffy01.command :=
  if String.eqb (Luffy01.after_last_dot (Luffy01.lower file_path)
                   (Luffy01.lower file_path)) "mp3"
  then Luffy01.mpg123 v file_path
  else Luffy01.aplay file_path.

(** The player process, if there is one, is the one for the current track
    at the current volume. *)
Definition tuned (s : Luffy01.AudioPlayer) : Prop :=
  match Luffy01.audio_process s with
  | None => True
  | Some cmd =>
      option_map (command_for (Luffy01.volume s))
        (py_index (Luffy01.audio_files s) (Luffy01.current_track_index s))
      = Some cmd
  end.

(** The operating system starts and ends processes and sets the mixer
    without failing. *)
Definition willing (env : Luffy01.sys_faults) : Prop :=
  forall c, env c = false.

End Luffy01Main.

(** * Properties of the playback controller *)

(** ** Proof support *)

(** Playing and pausing leave the media on the player. *)
Lemma media_play p : vlc.media (vlc.play p) = vlc.media p.
Proof. unfold vlc.play. destruct (vlc.media p) eqn:E; cbn; congruence. Qed.

Lemma media_pause p : vlc.media (vlc.pause p) = vlc.media p.
Proof. unfold vlc.pause. destruct (vlc.state p); reflexivity. Qed.

Ltac use_hyp :=
  match goal with
  | H : quiet ?env |- context [?env ?c] => rewrite (H c)
  | H : ?x = _ |- context [match ?x with _ => _ end] => rewrite H
  | H : ?x = _ |- context [if ?x then _ else _] => rewrite H
  | |- context [vlc.media (vlc.play _)] => rewrite media_play
  | |- context [vlc.media (vlc.pause _)] => rewrite media_pause
  end.

(** Run a handler symbolically: compute, and take the branch a hypothesis
    decides. *)
Ltac py_run := repeat (cbn; try use_hyp).

Ltac unfold03 :=
  cbv beta delta
    [Luffy03.step Luffy03.handler Luffy03.handle_button pin_of
     Luffy03.toggle_playback Luffy03.start_playback Luffy03.next_track
     Luffy03.on_media_end Luffy03.adjust_volume Luffy03.update_display
     Luffy03.position_line Luffy03.get_position Luffy03.get_length
     Luffy03.current_file Luffy03.engine Luffy03.media_new
     Luffy03.get_media Luffy03.logger try_except bind gets modify ret raise].

Ltac unfold06 :=
  cbv beta delta
    [Luffy06.step Luffy06.activity Luffy06.handle_button
     Luffy06.on_media_state_changed Luffy06.event_handler_turn
     Luffy06.run_turn Luffy06.while_running Luffy06.with_lock
     Luffy06.toggle_playback Luffy06.start_playback Luffy06.next_track
     Luffy06.adjust_volume Luffy06.update_display Luffy06.put
     Luffy06.position_line Luffy06.get_position Luffy06.get_length
     Luffy06.current_file Luffy06.engine Luffy06.on_current_media
     Luffy06.media_new Luffy06.get_media Luffy06.logger
     try_except bind gets modify ret raise].

(** Take every branch the engine's answers can select. *)
Ltac engine_cases env :=
  repeat (cbn; try use_hyp;
          try match goal with
              | |- context [env ?c] => destruct (env c) eqn:?
              end).

Ltac unfold03_main :=
  cbv beta delta
    [Luffy03.main Luffy03.__init__ Luffy03.run Luffy03.setup_gpio
     Luffy03.load_audio_files Luffy03.update_display Luffy03.current_file
     Luffy03.position_line Luffy03.get_media Luffy03.get_position
     Luffy03.get_length Luffy03.logger
     try_except bind gets modify ret raise].

Ltac unfold06_main :=
  cbv beta delta
    [Luffy06.main Luffy06.__init__ Luffy06.run Luffy06.setup_gpio
     Luffy06.load_audio_files Luffy06.update_display Luffy06.current_file
     Luffy06.position_line Luffy06.get_media Luffy06.get_position
     Luffy06.get_length Luffy06.logger
     try_except bind gets modify ret raise].

Ltac unfold01 :=
  cbv beta delta
    [Luffy01.step Luffy01.handle_button pin_of Luffy01.toggle_playback
     Luffy01.start_playback Luffy01.stop_playback Luffy01.next_track
     Luffy01.adjust_volume Luffy01.update_display
     Luffy01.get_player_command Luffy01.current_file Luffy01.sys
     Luffy01.logger try_except bind gets modify ret raise].

Ltac sys_cases env :=
  repeat (cbn; try use_hyp;
          try match goal with
              | |- context [env ?c] => destruct (env c) eqn:?
              | |- context [if String.eqb ?a ?b then _ else _] =>
                  destruct (String.eqb a b) eqn:?
              | |- context [if Luffy01.endswith ?a ?b then _ else _] =>
                  destruct (Luffy01.endswith a b) eqn:?
              end).

(** ** Lists, indices and the engine's media *)

Lemma py_index_in_range {A} (l : list A) (i : Z) :
  in_range l i -> exists x, py_index l i = Some x.
Proof.
  unfold in_range, py_index. intros [H0 H1].
  destruct (Z.leb_spec 0 i); [|lia].
  destruct (nth_error l (Z.to_nat i)) eqn:E; eauto.
  apply nth_error_None in E. lia.
Qed.

Lemma mod_in_range {A} (l : list A) (i : Z) :
  l <> [] -> in_range l ((i + 1) mod Z.of_nat (List.length l)).
Proof.
  intros H. unfold in_range. apply Z.mod_pos_bound.
  destruct l; [congruence | cbn; lia].
Qed.

Lemma in_range_nonempty {A} (l : list A) (i : Z) : in_range l i -> l <> [].
Proof. unfold in_range. intros H ->. cbn in H. lia. Qed.

Lemma length_eqb_nonempty {A} (l : list A) :
  l <> [] -> (Z.of_nat (List.length l) =? 0) = false.
Proof. destruct l; [congruence|]. intros _. cbn. reflexivity. Qed.

Lemma round_trip (i n : Z) : 0 <= i < n -> (i + n) mod n = i.
Proof.
  intros H. rewrite Z.add_mod by lia. rewrite Z.mod_same by lia.
  rewrite Z.add_0_r, Z.mod_mod by lia. apply Z.mod_small. lia.
Qed.

Lemma no_fault_quiet : quiet no_fault.
Proof. intros c. reflexivity. Qed.

(** ** Reachable states of luffy03 are well formed *)

Lemma start_well_formed_03 host :
  fst (Luffy03.main host) = Return tt ->
  Luffy03.well_formed (snd (Luffy03.main host)).
Proof.
  unfold03_main.
  destruct (font_found host), (gpio_works host),
    (audio_library host) as [names|];
    try (cbn; discriminate);
    destruct (flat_map (fun ext => glob_sorted ext names) Luffy03.extensions)
      as [|f files]; cbn; try discriminate; intros _;
    (split; [unfold in_range; cbn; lia | cbn; lia | intros H; discriminate H]).
Qed.

Lemma step_well_formed_03 env e s :
  Luffy03.well_formed s -> Luffy03.well_formed (Luffy03.step env e s).
Proof.
  intros [Hi Hv Hc].
  pose proof (in_range_nonempty _ _ Hi) as Hne.
  pose proof (length_eqb_nonempty _ Hne) as Hlen.
  destruct (py_index_in_range _ _ Hi) as [f Hf].
  destruct (py_index_in_range _ _
              (mod_in_range _ (Luffy03.current_track_index s) Hne))
    as [g Hg].
  unfold Luffy03.consistent in Hc.
  destruct e as [[| | |]|]; unfold03.
  all: destruct (Luffy03.is_playing s) eqn:Ep.
  all: destruct (vlc.media (Luffy03.player s)) eqn:Em.
  all: try (exfalso; now apply Hc).
  all: engine_cases env.
  all: split; unfold Luffy03.consistent; cbn;
    rewrite ?media_play, ?media_pause; try assumption; try lia;
    try congruence; try (apply mod_in_range; assumption).
Qed.

Lemma reachable_well_formed_03 s :
  Luffy03.reachable s -> Luffy03.well_formed s.
Proof.
  induction 1 as [host Hok | env e s _ IH].
  - now apply start_well_formed_03.
  - now apply step_well_formed_03.
Qed.

Lemma reachable_steps_03 es s :
  Luffy03.reachable s -> Luffy03.reachable (Luffy03.steps es s).
Proof.
  revert s. induction es as [|[env e] es IH]; intros s H; cbn; [assumption|].
  apply IH. now constructor.
Qed.

Lemma start03_reachable : Luffy03.reachable start03.
Proof. apply Luffy03.reachable_start. reflexivity. Qed.

(** ** Reachable states of luffy06 are well formed *)

Lemma randint_in_range host (n : Z) :
  0 < n -> 0 <= Luffy06.randint host 0 (n - 1) < n.
Proof.
  intros Hn. unfold Luffy06.randint.
  replace (n - 1 - 0 + 1) with n by lia.
  pose proof (Z.mod_pos_bound (entropy host) n Hn). lia.
Qed.

Lemma start_well_formed_06 host :
  fst (Luffy06.main host) = Return tt ->
  Luffy06.well_formed (snd (Luffy06.main host)).
Proof.
  unfold06_main.
  destruct (font_found host), (gpio_works host),
    (audio_library host) as [names|];
    try (cbn; discriminate);
    destruct (flat_map (fun ext => glob_sorted ext names) Luffy06.extensions)
      as [|f files] eqn:E; try (cbn; discriminate).
  all: set (n := Z.of_nat (List.length (f :: files))).
  all: assert (Hn : 0 < n) by (unfold n; cbn [List.length]; lia).
  all: pose proof (randint_in_range host n Hn) as Hr.
  all: destruct (py_index_in_range (f :: files)
                   (Luffy06.randint host 0 (n - 1)) Hr) as [g Hg].
  all: cbn -[Luffy06.randint py_index Z.of_nat List.length]; fold n;
    rewrite Hg; cbn -[Luffy06.randint py_index Z.of_nat List.length];
    intros _.
  all: split; [exact Hr | cbn; lia | intros H; discriminate H].
Qed.

Lemma step_well_formed_06 env c s :
  Luffy06.well_formed s -> Luffy06.well_formed (Luffy06.step env c s).
Proof.
  intros [Hi Hv Hc].
  pose proof (in_range_nonempty _ _ Hi) as Hne.
  pose proof (length_eqb_nonempty _ Hne) as Hlen.
  pose proof (mod_in_range _ (Luffy06.current_track_index s) Hne) as Hi'.
  destruct (py_index_in_range _ _ Hi) as [f Hf].
  destruct (py_index_in_range _ _ Hi') as [g Hg].
  unfold Luffy06.consistent in Hc.
  assert (Hm : Luffy06.is_playing s = true ->
               exists m, vlc.media (Luffy06.player s) = Some m).
  { intros Hp. destruct (vlc.media (Luffy06.player s)) eqn:Em; eauto.
    now elim (Hc Hp). }
  destruct c as [pin|event| |].
  - unfold06. unfold BUTTONS, LABELS. cbn [list_index].
    destruct (pin =? 5) eqn:E5; [|destruct (pin =? 6) eqn:E6;
      [|destruct (pin =? 16) eqn:E16; [|destruct (pin =? 24) eqn:E24]]];
      destruct (Luffy06.is_playing s) eqn:Ep;
      destruct (vlc.media (Luffy06.player s)) eqn:Em;
      try (destruct (Hm eq_refl); discriminate);
      destruct (Luffy06.current_media s) eqn:Ec;
      engine_cases env;
      (split; unfold Luffy06.consistent; cbn;
       rewrite ?media_play, ?media_pause; try assumption; try lia;
       try congruence).
  - destruct event as [[|] []]; unfold06; cbn; split; assumption.
  - destruct (Luffy06.running s) eqn:Er;
      destruct (Luffy06.event_queue s) as [|event_type rest] eqn:Eq;
      try (unfold06; py_run; split; assumption).
    destruct (String.eqb event_type "MEDIA_END") eqn:E1;
      [|destruct (String.eqb event_type "UPDATE_DISPLAY") eqn:E2];
      destruct (Luffy06.is_playing s) eqn:Ep;
      destruct (vlc.media (Luffy06.player s)) eqn:Em;
      try (destruct (Hm eq_refl); discriminate);
      destruct (Luffy06.current_media s) eqn:Ec;
      unfold06; engine_cases env;
      (split; unfold Luffy06.consistent; cbn;
       try assumption; try lia; try congruence).
  - destruct (Luffy06.running s) eqn:Er;
      destruct (Luffy06.is_playing s) eqn:Ep;
      unfold06; py_run; split; unfold Luffy06.consistent; cbn;
      try assumption; try congruence; intros _; now apply Hc.
Qed.

Lemma reachable_well_formed_06 s :
  Luffy06.reachable s -> Luffy06.well_formed s.
Proof.
  induction 1 as [host Hok | env c s _ IH].
  - now apply start_well_formed_06.
  - now apply step_well_formed_06.
Qed.

Lemma reachable_steps_06 cs s :
  Luffy06.reachable s -> Luffy06.reachable (Luffy06.steps cs s).
Proof.
  revert s. induction cs as [|[env c] cs IH]; intros s H; cbn; [assumption|].
  apply IH. now constructor.
Qed.

Lemma start06_reachable : Luffy06.reachable start06.
Proof. apply Luffy06.reachable_start. reflexivity. Qed.

Lemma start03_well_formed : Luffy03.well_formed start03.
Proof. apply reachable_well_formed_03, start03_reachable. Qed.

Lemma start06_well_formed : Luffy06.well_formed start06.
Proof.
  split; [unfold in_range; vm_compute; split; [discriminate | reflexivity]
         | vm_compute; split; discriminate
         | intros H; discriminate H].
Qed.

(** While nothing is playing [update_display] asks the engine nothing, so
    the first frame, drawn by [run], is the same whatever the engine
    would answer. *)
Lemma idle_update_display_03 env s :
  Luffy03.is_playing s = false ->
  Luffy03.update_display env s = Luffy03.update_display no_fault s.
Proof.
  intros Ep. unfold03.
  destruct (py_index (Luffy03.audio_files s) (Luffy03.current_track_index s));
    py_run; reflexivity.
Qed.

Lemma idle_update_display_06 env s :
  Luffy06.is_playing s = false ->
  Luffy06.update_display env s = Luffy06.update_display no_fault s.
Proof.
  intros Ep. unfold06.
  destruct (py_index (Luffy06.audio_files s) (Luffy06.current_track_index s));
    py_run; reflexivity.
Qed.

Lemma first_frame_03 host env :
  (Luffy03.__init__ host ;;
   Luffy03.logger INFO StartingAudioPlayer ;;
   Luffy03.update_display env)%py Luffy03.fresh
  = Luffy03.main host.
Proof.
  unfold03_main.
  destruct (font_found host), (gpio_works host),
    (audio_library host) as [names|];
    try reflexivity;
    destruct (flat_map (fun ext => glob_sorted ext names) Luffy03.extensions);
    reflexivity.
Qed.

Lemma first_frame_06 host env :
  (Luffy06.__init__ host ;;
   Luffy06.logger INFO StartingAudioPlayer ;;
   Luffy06.update_display env)%py Luffy06.fresh
  = Luffy06.main host.
Proof.
  unfold06_main.
  destruct (font_found host), (gpio_works host),
    (audio_library host) as [names|];
    try reflexivity;
    destruct (flat_map (fun ext => glob_sorted ext names) Luffy06.extensions);
    try reflexivity;
    cbn -[py_index Luffy06.randint];
    match goal with
    | |- context [py_index ?l ?i] => destruct (py_index l i)
    end; reflexivity.
Qed.

(** ** PlayPause *)

Lemma play_pause_03 env s :
  quiet env -> Luffy03.well_formed s ->
  let s' := Luffy03.step env (ButtonPressed PlayPause) s in
  Luffy03.current_track_index s' = Luffy03.current_track_index s
  /\ Luffy03.volume s' = Luffy03.volume s
  /\ match Luffy03.status s with
     | Stopped =>
         Luffy03.status s' = Playing
         /\ vlc.media (Luffy03.player s')
            = py_index (Luffy03.audio_files s) (Luffy03.current_track_index s)
         /\ vlc.state (Luffy03.player s') = vlc.Playing
     | Playing =>
         Luffy03.status s' = Paused
         /\ Luffy03.player s' = vlc.pause (Luffy03.player s)
     | Paused =>
         Luffy03.status s' = Playing
         /\ Luffy03.player s' = vlc.play (Luffy03.player s)
     end.
Proof.
  intros Q [Hi Hv Hc].
  destruct (py_index_in_range _ _ Hi) as [f Hf].
  unfold Luffy03.consistent in Hc. unfold Luffy03.status.
  destruct (Luffy03.is_playing s) eqn:Ep.
  - destruct (vlc.media (Luffy03.player s)) eqn:Em; [|exfalso; now apply Hc].
    unfold03. py_run. unfold Luffy03.status. 
    assert (vlc.media (vlc.pause (Luffy03.player s)) = Some s0).
    { unfold vlc.pause. destruct (vlc.state _); cbn; auto. }
    py_run. auto.
  - destruct (vlc.media (Luffy03.player s)) eqn:Em.
    + unfold03. py_run. unfold Luffy03.status. py_run. auto.
    + unfold03. py_run. unfold Luffy03.status. py_run. auto.
Qed.

Lemma play_pause_06 env s :
  quiet env -> Luffy06.well_formed s ->
  let s' := Luffy06.step env (Luffy06.ButtonCallback (pin_of PlayPause)) s in
  Luffy06.current_track_index s' = Luffy06.current_track_index s
  /\ Luffy06.volume s' = Luffy06.volume s
  /\ match Luffy06.status s with
     | Stopped =>
         Luffy06.status s' = Playing
         /\ vlc.media (Luffy06.player s')
            = py_index (Luffy06.audio_files s) (Luffy06.current_track_index s)
         /\ vlc.state (Luffy06.player s') = vlc.Playing
     | Playing =>
         Luffy06.status s' = Paused
         /\ Luffy06.player s' = vlc.pause (Luffy06.player s)
     | Paused =>
         Luffy06.status s' = Playing
         /\ Luffy06.player s' = vlc.play (Luffy06.player s)
     end.
Proof.
  intros Q [Hi Hv Hc].
  destruct (py_index_in_range _ _ Hi) as [f Hf].
  unfold Luffy06.consistent in Hc. unfold Luffy06.status.
  destruct (Luffy06.is_playing s) eqn:Ep.
  - destruct (vlc.media (Luffy06.player s)) eqn:Em; [|exfalso; now apply Hc].
    assert (vlc.media (vlc.pause (Luffy06.player s)) = Some s0).
    { unfold vlc.pause. destruct (vlc.state _); cbn; auto. }
    unfold06. py_run. unfold Luffy06.status. py_run. auto.
  - destruct (vlc.media (Luffy06.player s)) eqn:Em.
    + unfold06. py_run. unfold Luffy06.status. py_run. auto.
    + destruct (Luffy06.current_media s) eqn:Ec;
        unfold06; py_run; unfold Luffy06.status; py_run; auto.
Qed.

(** luffy01 has no pause.  A press of Play/Pause while playing ends the
    player process and leaves the state stopped; a press while stopped
    starts the current track from its beginning. *)
Lemma play_pause_01 env s :
  Luffy01Main.willing env ->
  in_range (Luffy01.audio_files s) (Luffy01.current_track_index s) ->
  Luffy01Main.process_flag s ->
  let s' := Luffy01.step env PlayPause s in
  Luffy01.current_track_index s' = Luffy01.current_track_index s
  /\ Luffy01.volume s' = Luffy01.volume s
  /\ match Luffy01.status s with
     | Playing =>
         Luffy01.status s' = Stopped /\ Luffy01.audio_process s' = None
     | _ =>
         Luffy01.status s' = Playing
         /\ option_map Luffy01Main.played (Luffy01.audio_process s')
            = py_index (Luffy01.audio_files s) (Luffy01.current_track_index s)
     end.
Proof.
  unfold Luffy01Main.willing, Luffy01Main.process_flag. intros Q Hi F.
  destruct (py_index_in_range _ _ Hi) as [f Hf].
  unfold Luffy01.status.
  destruct (Luffy01.is_playing s) eqn:Ep;
    destruct (Luffy01.audio_process s) eqn:Ea; try discriminate F;
    unfold01; rewrite ?Q; sys_cases env; rewrite ?Q; cbn; rewrite ?Hf;
    repeat split; reflexivity.
Qed.

(** C1, as stated, fails on luffy01, which starts playing by itself and
    has no pause: a press of Play/Pause while the first track plays ends
    the player process, and the status is Stopped, not Paused; the next
    press starts the track again. *)
Lemma play_pause_stops_luffy01 :
  let s := snd (Luffy01Main.main demo_host (fun _ => false) 80) in
  let s' := Luffy01.step (fun _ => false) PlayPause s in
  Luffy01Main.reachable s
  /\ Luffy01.status s = Playing
  /\ Luffy01.status s' = Stopped
  /\ Luffy01.status s' <> Paused
  /\ Luffy01.audio_process s' = None
  /\ Luffy01.status (Luffy01.step (fun _ => false) PlayPause s') = Playing.
Proof.
  split; [apply Luffy01Main.reachable_start; reflexivity|].
  vm_compute. repeat split; try reflexivity. discriminate.
Qed.

(** C1, amended.  A press of Play/Pause, with the engine answering its
    calls, in a well-formed state of a VLC variant (luffy03 on [s3],
    luffy06 on [s6]): from Stopped the current track is loaded and played
    and the status becomes Playing; from Playing the engine is paused and
    the status becomes Paused; from Paused the engine is resumed and the
    status becomes Playing.  In luffy01 (on [s1], the operating system
    carrying out its calls) there is no Paused status: from Stopped the
    press starts a player process and the status becomes Playing; from
    Playing it ends the process and the status becomes Stopped.  The
    track index and the volume stay as they were in all three. *)
Theorem play_pause_transitions env s3 s6 env1 s1 :
  quiet env -> Luffy03.well_formed s3 -> Luffy06.well_formed s6 ->
  Luffy01Main.willing env1 ->
  in_range (Luffy01.audio_files s1) (Luffy01.current_track_index s1) ->
  Luffy01Main.process_flag s1 ->
  let s3' := Luffy03.step env (ButtonPressed PlayPause) s3 in
  let s6' :=
    Luffy06.step env (Luffy06.ButtonCallback (pin_of PlayPause)) s6 in
  let s1' := Luffy01.step env1 PlayPause s1 in
  (Luffy03.current_track_index s3' = Luffy03.current_track_index s3
   /\ Luffy03.volume s3' = Luffy03.volume s3
   /\ match Luffy03.status s3 with
      | Stopped =>
          Luffy03.status s3' = Playing
          /\ vlc.media (Luffy03.player s3')
             = py_index (Luffy03.audio_files s3)
                        (Luffy03.current_track_index s3)
          /\ vlc.state (Luffy03.player s3') = vlc.Playing
      | Playing =>
          Luffy03.status s3' = Paused
          /\ Luffy03.player s3' = vlc.pause (Luffy03.player s3)
      | Paused =>
          Luffy03.status s3' = Playing
          /\ Luffy03.player s3' = vlc.play (Luffy03.player s3)
      end)
  /\ (Luffy06.current_track_index s6' = Luffy06.current_track_index s6
   /\ Luffy06.volume s6' = Luffy06.volume s6
   /\ match Luffy06.status s6 with
      | Stopped =>
          Luffy06.status s6' = Playing
          /\ vlc.media (Luffy06.player s6')
             = py_index (Luffy06.audio_files s6)
                        (Luffy06.current_track_index s6)
          /\ vlc.state (Luffy06.player s6') = vlc.Playing
      | Playing =>
          Luffy06.status s6' = Paused
          /\ Luffy06.player s6' = vlc.pause (Luffy06.player s6)
      | Paused =>
          Luffy06.status s6' = Playing
          /\ Luffy06.player s6' = vlc.play (Luffy06.player s6)
      end)
  /\ (Luffy01.current_track_index s1' = Luffy01.current_track_index s1
   /\ Luffy01.volume s1' = Luffy01.volume s1
   /\ match Luffy01.status s1 with
      | Playing =>
          Luffy01.status s1' = Stopped /\ Luffy01.audio_process s1' = None
      | _ =>
          Luffy01.status s1' = Playing
          /\ option_map Luffy01Main.played (Luffy01.audio_process s1')
             = py_index (Luffy01.audio_files s1)
                        (Luffy01.current_track_index s1)
      end).
Proof.
  intros Q W3 W6 Q1 R1 F1.
  split; [now apply play_pause_03|]. split; [now apply play_pause_06|].
  now apply play_pause_01.
Qed.

Lemma play_pause_transitions_witness :
  Luffy03.status start03 = Stopped
  /\ Luffy03.status (Luffy03.step no_fault (ButtonPressed PlayPause) start03)
     = Playing
  /\ Luffy06.status start06 = Stopped
  /\ Luffy06.status
       (Luffy06.step no_fault (Luffy06.ButtonCallback (pin_of PlayPause))
          start06)
     = Playing
  /\ Luffy01.status (snd (Luffy01Main.main demo_host (fun _ => false) 80))
     = Playing
  /\ Luffy01.status
       (Luffy01.step (fun _ => false) PlayPause
          (snd (Luffy01Main.main demo_host (fun _ => false) 80)))
     = Stopped.
Proof.
  assert (R1 : in_range
                 (Luffy01.audio_files
                    (snd (Luffy01Main.main demo_host (fun _ => false) 80)))
                 (Luffy01.current_track_index
                    (snd (Luffy01Main.main demo_host (fun _ => false) 80))))
    by (unfold in_range; vm_compute; split; [discriminate | reflexivity]).
  pose proof (play_pause_transitions no_fault start03 start06
                (fun _ => false)
                (snd (Luffy01Main.main demo_host (fun _ => false) 80))
                no_fault_quiet start03_well_formed start06_well_formed
                (fun c => eq_refl) R1 eq_refl) as (H3 & H6 & H1).
  split; [reflexivity|].
  split; [exact (proj1 (proj2 (proj2 H3)))|].
  split; [reflexivity|].
  split; [exact (proj1 (proj2 (proj2 H6)))|].
  split; [reflexivity|].
  exact (proj1 (proj2 (proj2 H1))).
Defined.

(** ** The engine's media and the current track *)

(** A press of Next while paused moves the index only; the press of
    Play/Pause that follows resumes whatever media the player holds. *)
Lemma resume_after_next_03 env1 env2 s m :
  quiet env1 -> quiet env2 -> Luffy03.well_formed s ->
  Luffy03.status s = Paused ->
  vlc.media (Luffy03.player s) = Some m ->
  let s' := Luffy03.step env2 (ButtonPressed PlayPause)
              (Luffy03.step env1 (ButtonPressed Next) s) in
  Luffy03.status s' = Playing
  /\ vlc.media (Luffy03.player s') = Some m
  /\ Luffy03.current_track_index s'
     = (Luffy03.current_track_index s + 1)
         mod Z.of_nat (List.length (Luffy03.audio_files s)).
Proof.
  intros Q1 Q2 [Hi Hv Hc] St Em.
  pose proof (in_range_nonempty _ _ Hi) as Hne.
  pose proof (length_eqb_nonempty _ Hne) as Hlen.
  destruct (py_index_in_range _ _ (mod_in_range _ (Luffy03.current_track_index s) Hne)) as [g Hg].
  unfold Luffy03.status in St.
  destruct (Luffy03.is_playing s) eqn:Ep; [discriminate|].
  unfold03. py_run. unfold Luffy03.status. py_run.
  rewrite ?media_play. auto.
Qed.

(** C2.  On the four-track player, Play/Pause, Play/Pause, Next,
    Play/Pause from start-up reach a state whose status is Playing and
    whose index is 1, while the media on the engine is still the track at
    index 0: the invariant that Playing means the current track is the
    one loaded does not hold in that reachable state. *)
Theorem playing_with_previous_track_loaded :
  let s := Luffy03.steps
             (calmly [ButtonPressed PlayPause; ButtonPressed PlayPause;
                      ButtonPressed Next; ButtonPressed PlayPause])
             start03 in
  Luffy03.reachable s
  /\ Luffy03.status s = Playing
  /\ Luffy03.current_track_index s = 1
  /\ py_index (Luffy03.audio_files s) (Luffy03.current_track_index s)
     = Some "audio_library/two.mp3"%string
  /\ vlc.media (Luffy03.player s) = Some "audio_library/one.MP3"%string
  /\ vlc.state (Luffy03.player s) = vlc.Playing.
Proof.
  split; [apply reachable_steps_03, start03_reachable|].
  vm_compute. repeat split; reflexivity.
Qed.

(** luffy06 resumes the same way. *)
Lemma resumed_previous_track_06 :
  let s := Luffy06.steps
             (calmly [Luffy06.ButtonCallback (pin_of PlayPause);
                      Luffy06.ButtonCallback (pin_of PlayPause);
                      Luffy06.ButtonCallback (pin_of Next);
                      Luffy06.ButtonCallback (pin_of PlayPause)])
             start06 in
  Luffy06.reachable s
  /\ Luffy06.status s = Playing
  /\ Luffy06.current_track_index s = 1
  /\ vlc.media (Luffy06.player s) = Some "audio_library/one.MP3"%string.
Proof.
  split; [apply reachable_steps_06, start06_reachable|].
  vm_compute. repeat split; reflexivity.
Qed.

(** luffy01 starts the current track afresh on every press that starts
    playback, so there the process playing is the one of the index. *)
Lemma play_after_next_01 env1 env2 s f :
  (forall c, env1 c = false) -> (forall c, env2 c = false) ->
  Luffy01.status s = Stopped ->
  Luffy01.audio_files s <> [] ->
  py_index (Luffy01.audio_files s)
    ((Luffy01.current_track_index s + 1)
       mod Z.of_nat (List.length (Luffy01.audio_files s))) = Some f ->
  let s' := Luffy01.step env2 PlayPause (Luffy01.step env1 Next s) in
  Luffy01.status s' = Playing
  /\ exists cmd,
       Luffy01.audio_process s' = Some cmd
       /\ match cmd with
          | Luffy01.mpg123 _ file_path | Luffy01.aplay file_path =>
              file_path = f
          end.
Proof.
  intros Q1 Q2 St Hne Hf.
  pose proof (length_eqb_nonempty _ Hne) as Hlen.
  unfold Luffy01.status in *.
  destruct (Luffy01.is_playing s) eqn:Ep; [discriminate|].
  destruct (Luffy01.audio_process s) eqn:Ea;
    unfold01; rewrite ?Q1, ?Q2; sys_cases env1; rewrite ?Q1, ?Q2;
    sys_cases env2; rewrite ?Q1, ?Q2; sys_cases env2;
    (split; [reflexivity | eexists; split; reflexivity]).
Qed.

(** ** End of media *)

(** The player at the point of the scenario where the track at index 1 is
    paused: Play/Pause, Next, three presses of Volume-, Play/Pause. *)
Lemma paused_at_one :
  let s := Luffy03.steps
             (calmly [ButtonPressed PlayPause; ButtonPressed Next;
                      ButtonPressed VolumeDown; ButtonPressed VolumeDown;
                      ButtonPressed VolumeDown; ButtonPressed PlayPause])
             start03 in
  Luffy03.status s = Paused
  /\ Luffy03.current_track_index s = 1
  /\ Luffy03.volume s = 35.
Proof. vm_compute. repeat split; reflexivity. Qed.

(** C3, as stated, fails: in the scenario above the status is Paused, and
    the end-of-media callback still moves the index, from 1 to 2. *)
Lemma media_ended_while_paused_advances :
  let s := Luffy03.steps
             (calmly [ButtonPressed PlayPause; ButtonPressed Next;
                      ButtonPressed VolumeDown; ButtonPressed VolumeDown;
                      ButtonPressed VolumeDown; ButtonPressed PlayPause])
             start03 in
  Luffy03.reachable s
  /\ Luffy03.status s = Paused
  /\ Luffy03.current_track_index s = 1
  /\ Luffy03.current_track_index (Luffy03.step no_fault MediaEnded s) = 2
  /\ Luffy03.step no_fault MediaEnded s <> s.
Proof.
  split; [apply reachable_steps_03, start03_reachable|].
  vm_compute. repeat split; try reflexivity. intros H. discriminate H.
Qed.

(** C3, amended.  With a non-empty catalog the end-of-media callback
    moves the index to the next track, cyclically, whatever the status.
    When the status is not Playing nothing else of the playback state
    changes: [is_playing], the status, the volume and the engine stay as
    they were, and one frame is drawn. *)
Theorem media_ended_advances_in_every_status env s :
  Luffy03.audio_files s <> [] ->
  let s' := Luffy03.step env MediaEnded s in
  Luffy03.current_track_index s'
  = (Luffy03.current_track_index s + 1)
      mod Z.of_nat (List.length (Luffy03.audio_files s))
  /\ (Luffy03.status s <> Playing ->
      Luffy03.status s' = Luffy03.status s
      /\ Luffy03.is_playing s' = false
      /\ Luffy03.volume s' = Luffy03.volume s
      /\ Luffy03.player s' = Luffy03.player s
      /\ Luffy03.audio_files s' = Luffy03.audio_files s
      /\ List.length (Luffy03.display s')
         = S (List.length (Luffy03.display s))).
Proof.
  intros Hne.
  pose proof (length_eqb_nonempty _ Hne) as Hlen.
  destruct (py_index_in_range _ _
              (mod_in_range _ (Luffy03.current_track_index s) Hne))
    as [g Hg].
  unfold Luffy03.status.
  destruct (Luffy03.is_playing s) eqn:Ep.
  - split; [|intros H; now elim H].
    unfold03. engine_cases env; reflexivity.
  - split; [unfold03; py_run; reflexivity|]. intros _.
    unfold03. py_run. unfold Luffy03.status. py_run. auto 10.
Qed.

Lemma media_ended_advances_in_every_status_witness :
  Luffy03.current_track_index (Luffy03.step no_fault MediaEnded start03) = 1.
Proof.
  refine (eq_trans
            (proj1 (media_ended_advances_in_every_status no_fault start03 _))
            _).
  - intros H; discriminate H.
  - reflexivity.
Defined.

(** C4.  In a state whose status is Playing, with a non-empty catalog,
    the end-of-media callback and a press of Next leave the player in the
    same state, whatever the engine does under them; the status is still
    Playing. *)
Theorem media_ended_same_as_next env s :
  Luffy03.audio_files s <> [] ->
  Luffy03.status s = Playing ->
  Luffy03.step env MediaEnded s = Luffy03.step env (ButtonPressed Next) s
  /\ Luffy03.status (Luffy03.step env MediaEnded s) = Playing.
Proof.
  intros Hne St.
  pose proof (length_eqb_nonempty _ Hne) as Hlen.
  destruct (py_index_in_range _ _
              (mod_in_range _ (Luffy03.current_track_index s) Hne))
    as [g Hg].
  unfold Luffy03.status in *.
  destruct (Luffy03.is_playing s) eqn:Ep;
    [|destruct (vlc.media (Luffy03.player s)); discriminate].
  unfold03. engine_cases env; split; reflexivity.
Qed.

Lemma media_ended_same_as_next_witness :
  let s := Luffy03.step no_fault (ButtonPressed PlayPause) start03 in
  Luffy03.step no_fault MediaEnded s
  = Luffy03.step no_fault (ButtonPressed Next) s.
Proof.
  refine (proj1 (media_ended_same_as_next no_fault
                   (Luffy03.step no_fault (ButtonPressed PlayPause) start03)
                   _ _)).
  - intros H; discriminate H.
  - reflexivity.
Defined.

(** The same in luffy06, where the notification waits in the queue: the
    track ends, Play/Pause is pressed before the drain loop gets to the
    MEDIA_END item, and the item then moves the index of a paused player. *)
Lemma media_end_drained_while_paused_06 :
  let ended := {| Luffy06.type := Luffy06.MediaStateChanged;
                  Luffy06.new_state := vlc.Ended |} in
  let s := Luffy06.steps
             (calmly [Luffy06.ButtonCallback (pin_of PlayPause);
                      Luffy06.DrainLoop;
                      Luffy06.EngineNotification ended;
                      Luffy06.ButtonCallback (pin_of PlayPause)])
             start06 in
  Luffy06.reachable s
  /\ Luffy06.status s = Paused
  /\ Luffy06.event_queue s = ["MEDIA_END"; "UPDATE_DISPLAY"]%string
  /\ Luffy06.current_track_index s = 0
  /\ Luffy06.current_track_index (Luffy06.step no_fault Luffy06.DrainLoop s) = 1
  /\ Luffy06.status (Luffy06.step no_fault Luffy06.DrainLoop s) = Paused.
Proof.
  split; [apply reachable_steps_06, start06_reachable|].
  vm_compute. repeat split; reflexivity.
Qed.

(** ** Volume *)

Lemma volume_press_03 env s b :
  volume_button b = true ->
  let s' := Luffy03.step env (ButtonPressed b) s in
  Luffy03.volume s'
  = Z.max 0 (Z.min 100 (Luffy03.volume s
                        + match b with VolumeUp => 5 | _ => -5 end))
  /\ Luffy03.status s' = Luffy03.status s
  /\ Luffy03.current_track_index s' = Luffy03.current_track_index s
  /\ Luffy03.audio_files s' = Luffy03.audio_files s.
Proof.
  intros Hb. unfold Luffy03.status.
  destruct b; try discriminate Hb; unfold03;
    destruct (py_index (Luffy03.audio_files s)
                (Luffy03.current_track_index s)) eqn:Hf;
    destruct (Luffy03.is_playing s) eqn:Ep;
    destruct (vlc.media (Luffy03.player s)) eqn:Em;
    engine_cases env; auto.
Qed.

(** The same press in luffy06, which asks for the frame through the
    queue. *)
Lemma volume_press_06 env s b :
  volume_button b = true ->
  let s' := Luffy06.step env (Luffy06.ButtonCallback (pin_of b)) s in
  Luffy06.volume s'
  = Z.max 0 (Z.min 100 (Luffy06.volume s
                        + match b with VolumeUp => 5 | _ => -5 end))
  /\ Luffy06.status s' = Luffy06.status s
  /\ Luffy06.current_track_index s' = Luffy06.current_track_index s
  /\ Luffy06.audio_files s' = Luffy06.audio_files s.
Proof.
  intros Hb. unfold Luffy06.status.
  destruct b; try discriminate Hb; unfold06; engine_cases env; auto.
Qed.

(** The volume is clamped as in the VLC variants and the index is left
    alone; the status survives when the operating system starts the new
    player process (an MP3 being played is restarted at the new scale). *)
Lemma volume_press_01 env s b :
  volume_button b = true ->
  let s' := Luffy01.step env b s in
  Luffy01.volume s'
  = Z.max 0 (Z.min 100 (Luffy01.volume s
                        + match b with VolumeUp => 5 | _ => -5 end))
  /\ Luffy01.current_track_index s' = Luffy01.current_track_index s
  /\ ((forall c, env c = false) -> Luffy01.status s' = Luffy01.status s).
Proof.
  intros Hb. unfold Luffy01.status.
  destruct b; try discriminate Hb;
    destruct (py_index (Luffy01.audio_files s) (Luffy01.current_track_index s))
      eqn:Hf;
    destruct (Luffy01.is_playing s) eqn:Ep;
    destruct (Luffy01.audio_process s) eqn:Ea;
    unfold01; sys_cases env;
    repeat split; try reflexivity;
    intros Q;
    repeat match goal with
           | H : env ?c = true |- _ => rewrite Q in H; discriminate H
           end.
Qed.

(** C5, as stated, fails on luffy01.  There a volume press while an MP3
    plays ends the player process and starts a new one at the new scale;
    when the operating system cannot start it, the press leaves the
    player Stopped.  On the four-track player, right after start-up: *)
Lemma volume_press_stops_luffy01 :
  let s := snd (Luffy01Main.main demo_host (fun _ => false) 80) in
  let no_popen :=
    fun c => match c with Luffy01.Popen => true | _ => false end in
  let s' := Luffy01.step no_popen VolumeUp s in
  Luffy01Main.reachable s
  /\ Luffy01.status s = Playing
  /\ Luffy01.volume s' = 55
  /\ Luffy01.status s' = Stopped
  /\ Luffy01.status s' <> Luffy01.status s.
Proof.
  split; [apply Luffy01Main.reachable_start; reflexivity|].
  vm_compute. repeat split; try reflexivity. discriminate.
Qed.

(** C5, amended.  From a state with the volume in [0,100], after any run
    of Volume+ and Volume- presses the volume is still in [0,100] and
    the track index is what it was, and the next press moves the volume
    by 5, stopping at 100 and at 0; this holds in luffy03 (on [s])
    whatever the engine does and in luffy01 (on [s1]) whatever the
    operating system does.  The status is what it was in luffy03,
    whatever the engine does; in luffy01, where a press restarts an MP3
    that is playing, it is what it was when the operating system carries
    out its calls. *)
Theorem volume_presses es s bs s1 :
  Forall (fun x => volume_event (snd x) = true) es ->
  0 <= Luffy03.volume s <= 100 ->
  Forall (fun x => volume_button (snd x) = true) bs ->
  0 <= Luffy01.volume s1 <= 100 ->
  let s' := Luffy03.steps es s in
  let s1' := Luffy01Main.steps bs s1 in
  ((0 <= Luffy03.volume s' <= 100
    /\ Luffy03.status s' = Luffy03.status s
    /\ Luffy03.current_track_index s' = Luffy03.current_track_index s)
   /\ (forall env,
          Luffy03.volume (Luffy03.step env (ButtonPressed VolumeUp) s')
          = Z.min 100 (Luffy03.volume s' + 5)
          /\ Luffy03.volume (Luffy03.step env (ButtonPressed VolumeDown) s')
             = Z.max 0 (Luffy03.volume s' - 5)))
  /\ ((0 <= Luffy01.volume s1' <= 100
       /\ Luffy01.current_track_index s1' = Luffy01.current_track_index s1
       /\ (Forall (fun x => Luffy01Main.willing (fst x)) bs ->
           Luffy01.status s1' = Luffy01.status s1))
      /\ (forall env1,
             Luffy01.volume (Luffy01.step env1 VolumeUp s1')
             = Z.min 100 (Luffy01.volume s1' + 5)
             /\ Luffy01.volume (Luffy01.step env1 VolumeDown s1')
                = Z.max 0 (Luffy01.volume s1' - 5))).
Proof.
  intros Hes Hv Hbs Hv1. split.
  - clear Hbs Hv1. revert s Hv.
    induction Hes as [|[env e] es He _ IH]; intros s Hv.
    + cbn. split; [auto|]. intros env.
      destruct (volume_press_03 env s VolumeUp eq_refl) as [Hu _].
      destruct (volume_press_03 env s VolumeDown eq_refl) as [Hd _].
      cbv zeta in Hu, Hd. rewrite Hu, Hd. lia.
    + destruct e as [b|]; [|discriminate He]. cbn in He.
      destruct (volume_press_03 env s b He) as (Hvol & Hst & Hidx & _).
      cbv zeta in Hvol, Hst, Hidx.
      cbn [Luffy03.steps]. cbv zeta.
      rewrite <- Hst, <- Hidx. apply IH. rewrite Hvol. lia.
  - clear Hes Hv. revert s1 Hv1.
    induction Hbs as [|[env1 b] bs Hb _ IH]; intros s1 Hv1.
    + cbn. split; [auto|]. intros env1.
      destruct (volume_press_01 env1 s1 VolumeUp eq_refl) as [Hu _].
      destruct (volume_press_01 env1 s1 VolumeDown eq_refl) as [Hd _].
      cbv zeta in Hu, Hd. rewrite Hu, Hd. lia.
    + cbn in Hb.
      destruct (volume_press_01 env1 s1 b Hb) as (Hvol & Hidx & Hst).
      cbv zeta in Hvol, Hidx, Hst.
      cbn [Luffy01Main.steps]. cbv zeta.
      destruct (IH (Luffy01.step env1 b s1)) as ((H1 & H2 & H3) & H4);
        [rewrite Hvol; lia|].
      split; [|exact H4].
      split; [exact H1|]. split; [now rewrite H2|].
      intros W. inversion W as [|x l Wx Wl]; subst.
      rewrite (H3 Wl). apply Hst. exact Wx.
Qed.

Lemma volume_presses_witness :
  Luffy03.volume
    (Luffy03.steps (calmly [ButtonPressed VolumeDown; ButtonPressed VolumeDown;
                            ButtonPressed VolumeDown]) start03) = 35
  /\ Luffy03.volume
       (Luffy03.step no_fault (ButtonPressed VolumeUp)
          (Luffy03.set_volume 98 start03)) = 100
  /\ Luffy01.volume
       (Luffy01.step (fun _ => false) VolumeUp
          (Luffy01.set_volume 98
             (snd (Luffy01Main.main demo_host (fun _ => false) 80)))) = 100.
Proof.
  assert (V : 0 <= 98 <= 100) by lia.
  pose proof (volume_presses []
                (Luffy03.set_volume 98 start03) []
                (Luffy01.set_volume 98
                   (snd (Luffy01Main.main demo_host (fun _ => false) 80)))
                (Forall_nil _) V (Forall_nil _) V)
    as ((_ & H3) & (_ & H1)).
  split; [reflexivity|].
  split.
  - exact (eq_trans (proj1 (H3 no_fault)) eq_refl).
  - exact (eq_trans (proj1 (H1 (fun _ => false))) eq_refl).
Defined.

(** ** Next *)

Lemma next_press_03 env s :
  Luffy03.audio_files s <> [] ->
  let s' := Luffy03.step env (ButtonPressed Next) s in
  Luffy03.current_track_index s'
  = (Luffy03.current_track_index s + 1)
      mod Z.of_nat (List.length (Luffy03.audio_files s))
  /\ Luffy03.audio_files s' = Luffy03.audio_files s.
Proof.
  intros Hne.
  pose proof (length_eqb_nonempty _ Hne) as Hlen.
  destruct (py_index_in_range _ _
              (mod_in_range _ (Luffy03.current_track_index s) Hne))
    as [g Hg].
  unfold03. destruct (Luffy03.is_playing s) eqn:Ep;
    engine_cases env; auto.
Qed.

Lemma next_press_06 env s :
  Luffy06.audio_files s <> [] ->
  let s' := Luffy06.step env (Luffy06.ButtonCallback (pin_of Next)) s in
  Luffy06.current_track_index s'
  = (Luffy06.current_track_index s + 1)
      mod Z.of_nat (List.length (Luffy06.audio_files s))
  /\ Luffy06.audio_files s' = Luffy06.audio_files s.
Proof.
  intros Hne.
  pose proof (length_eqb_nonempty _ Hne) as Hlen.
  destruct (py_index_in_range _ _
              (mod_in_range _ (Luffy06.current_track_index s) Hne))
    as [g Hg].
  unfold06. destruct (Luffy06.is_playing s) eqn:Ep;
    destruct (Luffy06.current_media s) eqn:Ec;
    engine_cases env; auto.
Qed.

(** [k] presses of Next move the index [k] places round the catalog. *)
Lemma next_presses_03 envs s :
  Luffy03.audio_files s <> [] ->
  let s' := Luffy03.steps (presses Next envs) s in
  Luffy03.current_track_index s'
  = (Luffy03.current_track_index s + Z.of_nat (List.length envs))
      mod Z.of_nat (List.length (Luffy03.audio_files s))
    \/ envs = [].
Proof.
  revert s. induction envs as [|env envs IH]; intros s Hne; [now right|].
  left. cbn [presses map Luffy03.steps]. cbv zeta.
  destruct (next_press_03 env s Hne) as [Hi Hf]. cbv zeta in Hi, Hf.
  assert (Hne' : Luffy03.audio_files
                   (Luffy03.step env (ButtonPressed Next) s) <> [])
    by now rewrite Hf.
  destruct (IH _ Hne') as [H | ->].
  - fold (presses Next envs). cbv zeta in H. rewrite H, Hf, Hi.
    rewrite Zplus_mod_idemp_l. f_equal. cbn [List.length]. lia.
  - cbn. rewrite Hi. f_equal.
Qed.

Lemma next_presses_06 envs s :
  Luffy06.audio_files s <> [] ->
  let s' := Luffy06.steps (callbacks Next envs) s in
  Luffy06.current_track_index s'
  = (Luffy06.current_track_index s + Z.of_nat (List.length envs))
      mod Z.of_nat (List.length (Luffy06.audio_files s))
    \/ envs = [].
Proof.
  revert s. induction envs as [|env envs IH]; intros s Hne; [now right|].
  left. cbn [callbacks map Luffy06.steps]. cbv zeta.
  destruct (next_press_06 env s Hne) as [Hi Hf]. cbv zeta in Hi, Hf.
  assert (Hne' : Luffy06.audio_files
                   (Luffy06.step env (Luffy06.ButtonCallback (pin_of Next)) s)
                 <> [])
    by now rewrite Hf.
  destruct (IH _ Hne') as [H | ->].
  - fold (callbacks Next envs). cbv zeta in H. rewrite H, Hf, Hi.
    rewrite Zplus_mod_idemp_l. f_equal. cbn [List.length]. lia.
  - cbn [callbacks map Luffy06.steps List.length]. rewrite Hi. f_equal.
Qed.

(** C6.  With the index inside a (then non-empty) catalog, a press of
    Next sets the index to (index + 1) mod len(catalog), whatever the
    status and whatever the engine does; from the last index that is 0;
    and len(catalog) presses in a row bring the index back to where it
    was.  luffy03 is [s3], luffy06 is [s6]. *)
Theorem next_is_cyclic env envs3 envs6 s3 s6 :
  in_range (Luffy03.audio_files s3) (Luffy03.current_track_index s3) ->
  in_range (Luffy06.audio_files s6) (Luffy06.current_track_index s6) ->
  List.length envs3 = List.length (Luffy03.audio_files s3) ->
  List.length envs6 = List.length (Luffy06.audio_files s6) ->
  let n3 := Z.of_nat (List.length (Luffy03.audio_files s3)) in
  let n6 := Z.of_nat (List.length (Luffy06.audio_files s6)) in
  let next3 := Luffy03.step env (ButtonPressed Next) s3 in
  let next6 := Luffy06.step env (Luffy06.ButtonCallback (pin_of Next)) s6 in
  (Luffy03.current_track_index next3
   = (Luffy03.current_track_index s3 + 1) mod n3
   /\ (Luffy03.current_track_index s3 = n3 - 1 ->
       Luffy03.current_track_index next3 = 0)
   /\ Luffy03.current_track_index (Luffy03.steps (presses Next envs3) s3)
      = Luffy03.current_track_index s3)
  /\ (Luffy06.current_track_index next6
      = (Luffy06.current_track_index s6 + 1) mod n6
      /\ (Luffy06.current_track_index s6 = n6 - 1 ->
          Luffy06.current_track_index next6 = 0)
      /\ Luffy06.current_track_index (Luffy06.steps (callbacks Next envs6) s6)
         = Luffy06.current_track_index s6).
Proof.
  intros R3 R6 L3 L6 n3 n6 next3 next6.
  pose proof (in_range_nonempty _ _ R3) as N3.
  pose proof (in_range_nonempty _ _ R6) as N6.
  split.
  - destruct (next_press_03 env s3 N3) as [Hi _]. fold next3 n3 in Hi.
    split; [exact Hi|]. split.
    + intros Hlast. rewrite Hi, Hlast. replace (n3 - 1 + 1) with n3 by lia.
      apply Z.mod_same. unfold in_range in R3. fold n3 in R3. lia.
    + destruct (next_presses_03 envs3 s3 N3) as [H | ->].
      * cbv zeta in H. rewrite H, L3. now apply round_trip.
      * reflexivity.
  - destruct (next_press_06 env s6 N6) as [Hi _]. fold next6 n6 in Hi.
    split; [exact Hi|]. split.
    + intros Hlast. rewrite Hi, Hlast. replace (n6 - 1 + 1) with n6 by lia.
      apply Z.mod_same. unfold in_range in R6. fold n6 in R6. lia.
    + destruct (next_presses_06 envs6 s6 N6) as [H | ->].
      * cbv zeta in H. rewrite H, L6. now apply round_trip.
      * reflexivity.
Qed.

Lemma next_is_cyclic_witness :
  Luffy03.current_track_index
    (Luffy03.steps (presses Next [no_fault; no_fault; no_fault; no_fault])
       start03)
  = Luffy03.current_track_index start03
  /\ Luffy06.current_track_index
       (Luffy06.steps (callbacks Next [no_fault; no_fault; no_fault; no_fault])
          start06)
     = Luffy06.current_track_index start06.
Proof.
  assert (R3 : in_range (Luffy03.audio_files start03)
                 (Luffy03.current_track_index start03))
    by (unfold in_range; vm_compute; split; [discriminate | reflexivity]).
  assert (R6 : in_range (Luffy06.audio_files start06)
                 (Luffy06.current_track_index start06))
    by (unfold in_range; vm_compute; split; [discriminate | reflexivity]).
  pose proof (next_is_cyclic no_fault
                [no_fault; no_fault; no_fault; no_fault]
                [no_fault; no_fault; no_fault; no_fault]
                start03 start06 R3 R6 eq_refl eq_refl) as [H3 H6].
  split; [exact (proj2 (proj2 H3)) | exact (proj2 (proj2 H6))].
Defined.

(** ** Engine failures *)

Lemma handler_returns_03 env e s :
  in_range (Luffy03.audio_files s) (Luffy03.current_track_index s) ->
  fst (Luffy03.handler env e s) = Return tt.
Proof.
  intros Hi.
  pose proof (in_range_nonempty _ _ Hi) as Hne.
  pose proof (length_eqb_nonempty _ Hne) as Hlen.
  destruct (py_index_in_range _ _ Hi) as [f Hf].
  destruct (py_index_in_range _ _
              (mod_in_range _ (Luffy03.current_track_index s) Hne))
    as [g Hg].
  destruct e as [[| | |]|]; unfold03;
    destruct (Luffy03.is_playing s) eqn:Ep;
    destruct (vlc.media (Luffy03.player s)) eqn:Em;
    engine_cases env; reflexivity.
Qed.

Lemma button_callback_returns_06 env b s :
  in_range (Luffy06.audio_files s) (Luffy06.current_track_index s) ->
  fst (Luffy06.activity env (Luffy06.ButtonCallback (pin_of b)) s) = Return tt.
Proof.
  intros Hi.
  pose proof (in_range_nonempty _ _ Hi) as Hne.
  pose proof (length_eqb_nonempty _ Hne) as Hlen.
  destruct (py_index_in_range _ _ Hi) as [f Hf].
  destruct (py_index_in_range _ _
              (mod_in_range _ (Luffy06.current_track_index s) Hne))
    as [g Hg].
  destruct b; unfold06;
    destruct (Luffy06.is_playing s) eqn:Ep;
    destruct (vlc.media (Luffy06.player s)) eqn:Em;
    destruct (Luffy06.current_media s) eqn:Ec;
    engine_cases env; reflexivity.
Qed.

(** The drain loop swallows whatever its turn raises. *)
Lemma drain_turn_returns_06 env s :
  fst (Luffy06.activity env Luffy06.DrainLoop s) = Return tt.
Proof.
  destruct (Luffy06.running s) eqn:Er;
    destruct (Luffy06.event_queue s) as [|event_type rest] eqn:Eq;
    try (unfold06; py_run; reflexivity).
  destruct (String.eqb event_type "MEDIA_END") eqn:E1;
    [|destruct (String.eqb event_type "UPDATE_DISPLAY") eqn:E2].
  - destruct (Z.of_nat (List.length (Luffy06.audio_files s)) =? 0) eqn:Hlen;
      destruct (py_index (Luffy06.audio_files s)
                  ((Luffy06.current_track_index s + 1)
                     mod Z.of_nat (List.length (Luffy06.audio_files s))))
        eqn:Hg;
      destruct (Luffy06.is_playing s) eqn:Ep;
      destruct (Luffy06.current_media s) eqn:Ec;
      unfold06; engine_cases env; reflexivity.
  - destruct (py_index (Luffy06.audio_files s) (Luffy06.current_track_index s))
      eqn:Hf;
      destruct (Luffy06.is_playing s) eqn:Ep;
      destruct (vlc.media (Luffy06.player s)) eqn:Em;
      unfold06; engine_cases env; reflexivity.
  - unfold06; py_run; reflexivity.
Qed.

Lemma failed_start_03 env s :
  load_or_play_fails env = true ->
  in_range (Luffy03.audio_files s) (Luffy03.current_track_index s) ->
  let r := Luffy03.start_playback env s in
  fst r = Return tt
  /\ Luffy03.is_playing (snd r) = Luffy03.is_playing s
  /\ Luffy03.current_track_index (snd r) = Luffy03.current_track_index s
  /\ Luffy03.volume (snd r) = Luffy03.volume s
  /\ Luffy03.display (snd r) = Luffy03.display s
  /\ exists c,
       Luffy03.log (snd r)
       = {| levelname := ERROR; msg := ErrorStartingPlayback (VlcError c) |}
           :: Luffy03.log s.
Proof.
  unfold load_or_play_fails. intros Hfail Hi.
  destruct (py_index_in_range _ _ Hi) as [f Hf].
  unfold03.
  destruct (env MediaNew) eqn:E1; [|destruct (env SetMedia) eqn:E2;
    [|destruct (env AudioSetVolume) eqn:E3;
      [|destruct (env Play) eqn:E4; [|discriminate Hfail]]]];
    py_run; repeat split; eexists; reflexivity.
Qed.

Lemma failed_start_06 env s :
  load_or_play_fails env = true ->
  in_range (Luffy06.audio_files s) (Luffy06.current_track_index s) ->
  let r := Luffy06.start_playback env s in
  fst r = Return tt
  /\ Luffy06.is_playing (snd r) = Luffy06.is_playing s
  /\ Luffy06.current_track_index (snd r) = Luffy06.current_track_index s
  /\ Luffy06.volume (snd r) = Luffy06.volume s
  /\ Luffy06.event_queue (snd r) = Luffy06.event_queue s
  /\ Luffy06.display (snd r) = Luffy06.display s
  /\ exists c,
       Luffy06.log (snd r)
       = {| levelname := ERROR; msg := ErrorStartingPlayback (VlcError c) |}
           :: Luffy06.log s.
Proof.
  unfold load_or_play_fails. intros Hfail Hi.
  destruct (py_index_in_range _ _ Hi) as [f Hf].
  unfold06.
  destruct (Luffy06.current_media s) eqn:Ec;
    (destruct (env MediaNew) eqn:E1; [|destruct (env SetMedia) eqn:E2;
      [|destruct (env AudioSetVolume) eqn:E3;
        [|destruct (env Play) eqn:E4; [|discriminate Hfail]]]]);
    engine_cases env; repeat split; eexists; reflexivity.
Qed.

(** A failed start of the player process in luffy01: the process that
    was running has been ended first, so the state is left stopped. *)
Lemma failed_popen_01 env s :
  env Luffy01.Popen = true -> env Luffy01.Terminate = false ->
  in_range (Luffy01.audio_files s) (Luffy01.current_track_index s) ->
  let r := Luffy01.start_playback env s in
  fst r = Return tt
  /\ (Luffy01.audio_process s <> None -> Luffy01.status (snd r) = Stopped)
  /\ (Luffy01.status s = Stopped -> Luffy01.status (snd r) = Stopped).
Proof.
  intros Hp Ht Hi.
  destruct (py_index_in_range _ _ Hi) as [f Hf].
  unfold Luffy01.status.
  destruct (Luffy01.is_playing s) eqn:Ep;
    destruct (Luffy01.audio_process s) eqn:Ea;
    unfold01; sys_cases env;
    repeat split; try reflexivity; try discriminate; try congruence.
Qed.

(** C7, as stated, fails: with the first track playing, a press of Next
    under an engine that cannot create the media logs the error, and the
    status is still Playing, not Stopped. *)
Lemma failed_load_keeps_playing :
  let s := Luffy03.step no_fault (ButtonPressed PlayPause) start03 in
  let s' := Luffy03.step (fault_at MediaNew) (ButtonPressed Next) s in
  Luffy03.reachable s'
  /\ load_or_play_fails (fault_at MediaNew) = true
  /\ In {| levelname := ERROR;
           msg := ErrorStartingPlayback (VlcError MediaNew) |}
        (Luffy03.log s')
  /\ Luffy03.status s' = Playing
  /\ Luffy03.status s' <> Stopped.
Proof.
  split; [do 2 apply Luffy03.reachable_step; apply start03_reachable|].
  vm_compute. repeat split; try reflexivity.
  - right. left. reflexivity.
  - discriminate.
Qed.

(** C7, amended.  When the engine fails while [start_playback] loads or
    starts the track, [start_playback] returns normally with the error
    logged, and leaves [is_playing], the track index, the volume and the
    panel as they were (in luffy06 the queue too): the status is not
    reset.  No callback lets an exception out, so the events that follow
    are handled.  luffy03 is [s3], luffy06 is [s6]. *)
Theorem failed_start_is_logged_and_status_kept env s3 s6 :
  load_or_play_fails env = true ->
  in_range (Luffy03.audio_files s3) (Luffy03.current_track_index s3) ->
  in_range (Luffy06.audio_files s6) (Luffy06.current_track_index s6) ->
  let r3 := Luffy03.start_playback env s3 in
  let r6 := Luffy06.start_playback env s6 in
  (fst r3 = Return tt
   /\ Luffy03.is_playing (snd r3) = Luffy03.is_playing s3
   /\ Luffy03.current_track_index (snd r3) = Luffy03.current_track_index s3
   /\ Luffy03.volume (snd r3) = Luffy03.volume s3
   /\ Luffy03.display (snd r3) = Luffy03.display s3
   /\ (exists c,
          Luffy03.log (snd r3)
          = {| levelname := ERROR; msg := ErrorStartingPlayback (VlcError c) |}
              :: Luffy03.log s3)
   /\ forall e, fst (Luffy03.handler env e s3) = Return tt)
  /\ (fst r6 = Return tt
      /\ Luffy06.is_playing (snd r6) = Luffy06.is_playing s6
      /\ Luffy06.current_track_index (snd r6) = Luffy06.current_track_index s6
      /\ Luffy06.volume (snd r6) = Luffy06.volume s6
      /\ Luffy06.event_queue (snd r6) = Luffy06.event_queue s6
      /\ Luffy06.display (snd r6) = Luffy06.display s6
      /\ (exists c,
             Luffy06.log (snd r6)
             = {| levelname := ERROR;
                  msg := ErrorStartingPlayback (VlcError c) |}
                 :: Luffy06.log s6)
      /\ (forall b,
             fst (Luffy06.activity env
                    (Luffy06.ButtonCallback (pin_of b)) s6) = Return tt)
      /\ fst (Luffy06.activity env Luffy06.DrainLoop s6) = Return tt).
Proof.
  intros Hfail R3 R6 r3 r6. split.
  - destruct (failed_start_03 env s3 Hfail R3) as (H1 & H2 & H3 & H4 & H5 & H6).
    repeat (split; [assumption|]).
    intros e. now apply handler_returns_03.
  - destruct (failed_start_06 env s6 Hfail R6)
      as (H1 & H2 & H3 & H4 & H5 & H6 & H7).
    repeat (split; [assumption|]). split.
    + intros b. now apply button_callback_returns_06.
    + apply drain_turn_returns_06.
Qed.

Lemma failed_start_is_logged_and_status_kept_witness :
  fst (Luffy03.start_playback (fault_at Play) start03) = Return tt
  /\ Luffy03.is_playing (snd (Luffy03.start_playback (fault_at Play) start03))
     = false
  /\ fst (Luffy06.start_playback (fault_at Play) start06) = Return tt.
Proof.
  assert (R3 : in_range (Luffy03.audio_files start03)
                 (Luffy03.current_track_index start03))
    by (unfold in_range; vm_compute; split; [discriminate | reflexivity]).
  assert (R6 : in_range (Luffy06.audio_files start06)
                 (Luffy06.current_track_index start06))
    by (unfold in_range; vm_compute; split; [discriminate | reflexivity]).
  pose proof (failed_start_is_logged_and_status_kept (fault_at Play)
                start03 start06 eq_refl R3 R6) as [H3 H6].
  split; [exact (proj1 H3)|].
  split; [exact (proj1 (proj2 H3)) | exact (proj1 H6)].
Defined.

(** ** Start-up without a catalog *)

Lemma nothing_globbed names ext :
  forallb (fun n => negb (recognized n)) names = true ->
  In ext Luffy03.extensions ->
  glob_sorted ext names = [].
Proof.
  intros Hall Hext. unfold glob_sorted.
  replace (filter (fnmatch ext) names) with (@nil string); [reflexivity|].
  symmetry. induction names as [|n names IH]; [reflexivity|].
  cbn [forallb] in Hall. apply andb_true_iff in Hall as [Hn Hrest].
  cbn [filter]. rewrite <- (IH Hrest).
  replace (fnmatch ext n) with false; [reflexivity|].
  symmetry. apply negb_true_iff in Hn. unfold recognized in Hn.
  destruct (fnmatch ext n) eqn:E; [|reflexivity].
  rewrite <- Hn. symmetry. apply existsb_exists. eauto.
Qed.

Lemma empty_catalog names :
  forallb (fun n => negb (recognized n)) names = true ->
  flat_map (fun ext => glob_sorted ext names) Luffy03.extensions = [].
Proof.
  intros Hall.
  assert (H : forall exts,
             (forall ext, In ext exts -> In ext Luffy03.extensions) ->
             flat_map (fun ext => glob_sorted ext names) exts = []).
  { induction exts as [|ext exts IH]; intros Hsub; [reflexivity|].
    cbn [flat_map]. rewrite (nothing_globbed names ext Hall).
    - apply IH. intros e He. apply Hsub. now right.
    - apply Hsub. now left. }
  apply H. auto.
Qed.

(** C8.  When the directory [audio_library] is absent, or holds no file
    with a recognized extension, [main] ends in [sys.exit(1)] raised by
    the constructor: [run] is never entered (its first log record is not
    there), no frame has been drawn, and the last thing logged is an
    error. *)
Theorem no_catalog_exits_before_run host :
  no_catalog host ->
  let s := snd (Luffy03.main host) in
  fst (Luffy03.main host) = Raise (SystemExit 1)
  /\ Luffy03.display s = []
  /\ (exists m rest,
         Luffy03.log s = {| levelname := ERROR; msg := m |} :: rest)
  /\ ~ In {| levelname := INFO; msg := StartingAudioPlayer |} (Luffy03.log s).
Proof.
  unfold no_catalog. intros H. unfold03_main.
  destruct (font_found host), (gpio_works host),
    (audio_library host) as [names|];
    try rewrite (empty_catalog names H);
    cbn; (split; [reflexivity|]); (split; [reflexivity|]);
    (split; [eauto|]); intuition discriminate.
Qed.

Lemma no_catalog_exits_before_run_witness :
  fst (Luffy03.main
         {| font_found := true; gpio_works := true;
            audio_library := Some ["cover.jpg"; "notes.txt"]%string;
            entropy := 0 |})
  = Raise (SystemExit 1)
  /\ fst (Luffy03.main
            {| font_found := true; gpio_works := true;
               audio_library := None; entropy := 0 |})
     = Raise (SystemExit 1).
Proof.
  split.
  - refine (proj1 (no_catalog_exits_before_run
                     {| font_found := true; gpio_works := true;
                        audio_library := Some ["cover.jpg"; "notes.txt"]%string;
                        entropy := 0 |} _)).
    reflexivity.
  - refine (proj1 (no_catalog_exits_before_run
                     {| font_found := true; gpio_works := true;
                        audio_library := None; entropy := 0 |} _)).
    exact I.
Defined.

(** luffy06 exits the same way, before its event thread is started. *)
Lemma empty_library_exits_06 host :
  no_catalog host ->
  let s := snd (Luffy06.main host) in
  fst (Luffy06.main host) = Raise (SystemExit 1)
  /\ Luffy06.display s = []
  /\ Luffy06.event_queue s = [].
Proof.
  unfold no_catalog. intros H. unfold06_main.
  destruct (font_found host), (gpio_works host),
    (audio_library host) as [names|];
    try (change Luffy06.extensions with Luffy03.extensions;
         rewrite (empty_catalog names H));
    cbn; repeat split; reflexivity.
Qed.

(** ** The refresh tick of luffy06 *)




(** ** Who writes the playback state of luffy06 *)

(** C10, as stated, fails: the callback of the Volume+ button, running on
    the GPIO thread, writes the volume itself, and the callback of
    Play/Pause writes [is_playing]; and the frame on the panel after
    start-up was drawn by the main thread, before any turn of the drain
    loop. *)
Lemma button_callback_writes_state :
  Luffy06.volume start06 = 50
  /\ Luffy06.volume
       (Luffy06.step no_fault (Luffy06.ButtonCallback (pin_of VolumeUp))
          start06) = 55
  /\ Luffy06.is_playing start06 = false
  /\ Luffy06.is_playing
       (Luffy06.step no_fault (Luffy06.ButtonCallback (pin_of PlayPause))
          start06) = true
  /\ List.length (Luffy06.display start06) = 1%nat.
Proof. vm_compute. repeat split; reflexivity. Qed.

Lemma engine_notification_only_enqueues env event s :
  Luffy06.only_enqueued s
    (Luffy06.step env (Luffy06.EngineNotification event) s).
Proof.
  destruct event as [[|] []]; unfold06; cbn;
    repeat (split; [reflexivity|]);
    solve [ exists []; now rewrite app_nil_r | eexists; reflexivity ].
Qed.

Lemma main_loop_only_enqueues env s :
  Luffy06.only_enqueued s (Luffy06.step env Luffy06.MainLoop s).
Proof.
  unfold06.
  destruct (Luffy06.running s) eqn:Er; destruct (Luffy06.is_playing s) eqn:Ep;
    py_run; repeat (split; [reflexivity|]);
    solve [ exists []; now rewrite app_nil_r | eexists; reflexivity ].
Qed.

Lemma button_callback_never_draws env pin s :
  Luffy06.display (Luffy06.step env (Luffy06.ButtonCallback pin) s)
  = Luffy06.display s.
Proof.
  unfold06. unfold BUTTONS, LABELS. cbn [list_index].
  destruct (pin =? 5) eqn:E5; [|destruct (pin =? 6) eqn:E6;
    [|destruct (pin =? 16) eqn:E16; [|destruct (pin =? 24) eqn:E24]]];
    destruct (Z.of_nat (List.length (Luffy06.audio_files s)) =? 0) eqn:Hlen;
    destruct (py_index (Luffy06.audio_files s)
                ((Luffy06.current_track_index s + 1)
                   mod Z.of_nat (List.length (Luffy06.audio_files s))))
      eqn:Hg;
    destruct (py_index (Luffy06.audio_files s) (Luffy06.current_track_index s))
      eqn:Hf;
    destruct (Luffy06.is_playing s) eqn:Ep;
    destruct (vlc.media (Luffy06.player s)) eqn:Em;
    destruct (Luffy06.current_media s) eqn:Ec;
    engine_cases env; reflexivity.
Qed.

(** C10, amended.  In luffy06 the engine's notification and the main
    loop only enqueue: they leave every attribute but the queue as it
    was.  A button callback never draws, it asks for a frame through the
    queue; but it does write the playback state itself (under the lock).
    After start-up, a frame is drawn by a turn of the drain loop only. *)
Theorem writers_by_context env s :
  (forall event,
      Luffy06.only_enqueued s
        (Luffy06.step env (Luffy06.EngineNotification event) s))
  /\ Luffy06.only_enqueued s (Luffy06.step env Luffy06.MainLoop s)
  /\ (forall pin,
         Luffy06.display (Luffy06.step env (Luffy06.ButtonCallback pin) s)
         = Luffy06.display s)
  /\ (forall c,
         Luffy06.display (Luffy06.step env c s) <> Luffy06.display s ->
         c = Luffy06.DrainLoop).
Proof.
  split; [intros event; apply engine_notification_only_enqueues|].
  split; [apply main_loop_only_enqueues|].
  split; [intros pin; apply button_callback_never_draws|].
  intros [pin|event| |] H; try reflexivity; exfalso; apply H.
  - apply button_callback_never_draws.
  - apply (engine_notification_only_enqueues env event s).
  - apply (main_loop_only_enqueues env s).
Qed.

(** * Further properties of the code *)

(** ** What holds in every state the players reach *)

(** X1.  luffy03: in every state reached from a successful start-up by
    button and end-of-media callbacks, whatever the engine does under
    them, the catalog is not empty, the index names one of its tracks,
    the volume is within 0..100, and [is_playing] is only set while the
    player holds a media. *)
Theorem reachable_invariant_03 s :
  Luffy03.reachable s ->
  Luffy03.audio_files s <> []
  /\ in_range (Luffy03.audio_files s) (Luffy03.current_track_index s)
  /\ 0 <= Luffy03.volume s <= 100
  /\ (Luffy03.is_playing s = true ->
      exists m, vlc.media (Luffy03.player s) = Some m).
Proof.
  intros H. destruct (reachable_well_formed_03 s H) as [Hi Hv Hc].
  split; [exact (in_range_nonempty _ _ Hi)|].
  split; [exact Hi|]. split; [exact Hv|].
  intros Hp. destruct (vlc.media (Luffy03.player s)) as [m|] eqn:Em;
    [now exists m | now elim (Hc Hp)].
Qed.

Lemma reachable_invariant_03_witness :
  let s := Luffy03.steps
             [(fault_at Play, ButtonPressed PlayPause);
              (no_fault, ButtonPressed Next);
              (fault_at AudioSetVolume, ButtonPressed VolumeUp);
              (no_fault, MediaEnded)] start03 in
  in_range (Luffy03.audio_files s) (Luffy03.current_track_index s)
  /\ 0 <= Luffy03.volume s <= 100.
Proof.
  cbv zeta.
  pose proof (reachable_invariant_03 _
                (reachable_steps_03
                   [(fault_at Play, ButtonPressed PlayPause);
                    (no_fault, ButtonPressed Next);
                    (fault_at AudioSetVolume, ButtonPressed VolumeUp);
                    (no_fault, MediaEnded)] start03 start03_reachable))
    as (_ & Hi & Hv & _).
  split; [exact Hi | exact Hv].
Defined.

(** X2.  luffy06: the same holds in every state reached from a
    successful start-up by any interleaving of button callbacks, engine
    notifications and turns of the two loops; in particular the index
    drawn at random by [load_audio_files] names a track. *)
Theorem reachable_invariant_06 s :
  Luffy06.reachable s ->
  Luffy06.audio_files s <> []
  /\ in_range (Luffy06.audio_files s) (Luffy06.current_track_index s)
  /\ 0 <= Luffy06.volume s <= 100
  /\ (Luffy06.is_playing s = true ->
      exists m, vlc.media (Luffy06.player s) = Some m).
Proof.
  intros H. destruct (reachable_well_formed_06 s H) as [Hi Hv Hc].
  split; [exact (in_range_nonempty _ _ Hi)|].
  split; [exact Hi|]. split; [exact Hv|].
  intros Hp. destruct (vlc.media (Luffy06.player s)) as [m|] eqn:Em;
    [now exists m | now elim (Hc Hp)].
Qed.

Lemma reachable_invariant_06_witness :
  let host := {| font_found := false; gpio_works := true;
                 audio_library := Some ["b.wav"; "a.aac"; "c.Mp3"]%string;
                 entropy := 7 |} in
  let s := Luffy06.steps
             [(no_fault, Luffy06.ButtonCallback (pin_of PlayPause));
              (fault_at MediaNew, Luffy06.ButtonCallback (pin_of Next));
              (no_fault, Luffy06.DrainLoop);
              (no_fault, Luffy06.MainLoop)]
             (snd (Luffy06.main host)) in
  in_range (Luffy06.audio_files s) (Luffy06.current_track_index s)
  /\ 0 <= Luffy06.volume s <= 100.
Proof.
  cbv zeta.
  pose proof (reachable_invariant_06 _
                (reachable_steps_06
                   [(no_fault, Luffy06.ButtonCallback (pin_of PlayPause));
                    (fault_at MediaNew, Luffy06.ButtonCallback (pin_of Next));
                    (no_fault, Luffy06.DrainLoop);
                    (no_fault, Luffy06.MainLoop)]
                   _ (Luffy06.reachable_start
                        {| font_found := false; gpio_works := true;
                           audio_library :=
                             Some ["b.wav"; "a.aac"; "c.Mp3"]%string;
                           entropy := 7 |} eq_refl)))
    as (_ & Hi & Hv & _).
  split; [exact Hi | exact Hv].
Defined.

(** ** The catalog, the queue and the subscriptions *)

(** Run a handler, splitting on whatever it gets stuck on: an answer of
    the engine, a field of the state, a lookup in the catalog. *)
Ltac branch :=
  match goal with
  | |- context [match ?x with _ => _ end] =>
      lazymatch x with
      | context [match _ with _ => _ end] => fail
      | _ => destruct x eqn:?
      end
  end.

Ltac run_all := repeat (cbn; try use_hyp; try branch).

Ltac button_cases pin :=
  unfold BUTTONS, LABELS; cbn [list_index];
  destruct (pin =? 5) eqn:?; [|destruct (pin =? 6) eqn:?;
    [|destruct (pin =? 16) eqn:?; [|destruct (pin =? 24) eqn:?]]].

Lemma catalog_kept_03 env e s :
  Luffy03.audio_files (Luffy03.step env e s) = Luffy03.audio_files s.
Proof.
  destruct e as [[| | |]|]; unfold03; run_all; reflexivity.
Qed.

Lemma catalog_kept_06 env c s :
  Luffy06.audio_files (Luffy06.step env c s) = Luffy06.audio_files s.
Proof.
  destruct c as [pin|event| |].
  - unfold06; button_cases pin; run_all; reflexivity.
  - destruct event as [[|] []]; unfold06; reflexivity.
  - unfold06; run_all; reflexivity.
  - unfold06; run_all; reflexivity.
Qed.

(** X3.  No callback and no loop turn of luffy03 or luffy06 ever changes
    [audio_files]: the catalog built at start-up is read-only, whatever
    the event and whatever the engine does. *)
Theorem catalog_is_read_only :
  (forall es s,
      Luffy03.audio_files (Luffy03.steps es s) = Luffy03.audio_files s)
  /\ (forall cs s,
         Luffy06.audio_files (Luffy06.steps cs s) = Luffy06.audio_files s).
Proof.
  split.
  - induction es as [|[env e] es IH]; intros s; [reflexivity|].
    cbn [Luffy03.steps]. rewrite IH. apply catalog_kept_03.
  - induction cs as [|[env c] cs IH]; intros s; [reflexivity|].
    cbn [Luffy06.steps]. rewrite IH. apply catalog_kept_06.
Qed.

Ltac queue_done H :=
  try match goal with
      | E : Luffy06.event_queue _ = _ |- _ => rewrite E
      end;
  lazymatch type of H with
  | Forall _ (_ :: _) => inversion H; subst
  | _ => idtac
  end;
  repeat (apply Forall_app; split); auto; repeat constructor.

Lemma known_items_kept env c s :
  Forall (fun item => known_item item = true) (Luffy06.event_queue s) ->
  Forall (fun item => known_item item = true)
    (Luffy06.event_queue (Luffy06.step env c s)).
Proof.
  intros H.
  destruct c as [pin|event| |].
  - unfold06; button_cases pin; run_all; queue_done H.
  - destruct event as [[|] []]; unfold06; cbn; queue_done H.
  - unfold06; run_all; queue_done H.
  - unfold06; run_all; queue_done H.
Qed.

(** X4.  luffy06: the queue only ever holds the two items the drain loop
    understands, MEDIA_END and UPDATE_DISPLAY; the loop's silent third
    case (an item that is neither) never occurs. *)
Theorem queue_holds_known_items s :
  Luffy06.reachable s ->
  Forall (fun item => item = "MEDIA_END"%string \/ item = "UPDATE_DISPLAY"%string)
    (Luffy06.event_queue s).
Proof.
  intros H.
  assert (K : Forall (fun item => known_item item = true)
                (Luffy06.event_queue s)).
  { induction H as [host Hok | env c s _ IH].
    - revert Hok. unfold06_main.
      destruct (font_found host), (gpio_works host),
        (audio_library host) as [names|];
        try (cbn; discriminate);
        destruct (flat_map (fun ext => glob_sorted ext names)
                    Luffy06.extensions) as [|f files];
        try (cbn; discriminate);
        destruct (py_index (f :: files)
                    (Luffy06.randint host 0
                       (Z.of_nat (List.length (f :: files)) - 1))) eqn:E;
        cbn -[Luffy06.randint py_index Z.of_nat List.length];
        rewrite E; cbn -[Luffy06.randint py_index Z.of_nat List.length];
        intros _; constructor.
    - now apply known_items_kept. }
  eapply Forall_impl; [|exact K].
  intros item Hk. unfold known_item in Hk.
  apply orb_true_iff in Hk as [Hk | Hk]; apply String.eqb_eq in Hk; auto.
Qed.

Lemma queue_holds_known_items_witness :
  let ended := {| Luffy06.type := Luffy06.MediaStateChanged;
                  Luffy06.new_state := vlc.Ended |} in
  Forall (fun item => item = "MEDIA_END"%string \/ item = "UPDATE_DISPLAY"%string)
    (Luffy06.event_queue
       (Luffy06.steps
          (calmly [Luffy06.ButtonCallback (pin_of PlayPause);
                   Luffy06.EngineNotification ended;
                   Luffy06.ButtonCallback (pin_of VolumeUp)])
          start06)).
Proof.
  cbv zeta. apply queue_holds_known_items.
  apply reachable_steps_06, start06_reachable.
Defined.

Ltac subscription_done H :=
  first
    [ exact H
    | try match goal with
          | E : Luffy06.current_media _ = _ |- _ => rewrite E
          end;
      let m' := fresh "m'" in
      let Hm := fresh "Hm" in
      intros m' Hm; try discriminate Hm;
      injection Hm as <-; cbn;
      first [ now apply H | auto using le_n, le_S, le_0_n ] ].

Lemma one_subscription_kept env c s :
  (forall m, Luffy06.current_media s = Some m ->
             (Luffy06.state_changed m <= 1)%nat) ->
  forall m, Luffy06.current_media (Luffy06.step env c s) = Some m ->
            (Luffy06.state_changed m <= 1)%nat.
Proof.
  intros H.
  destruct c as [pin|event| |].
  - unfold06; button_cases pin; run_all; subscription_done H.
  - destruct event as [[|] []]; unfold06; cbn; exact H.
  - unfold06; run_all; subscription_done H.
  - unfold06; run_all; subscription_done H.
Qed.

(** X5.  luffy06: the media the controller holds has at most one
    [MediaStateChanged] callback attached, in every reachable state:
    [start_playback] detaches from the media it replaces and attaches
    once to the new one, so one end of track gives at most one MEDIA_END. *)
Theorem at_most_one_subscription s m :
  Luffy06.reachable s ->
  Luffy06.current_media s = Some m ->
  (Luffy06.state_changed m <= 1)%nat.
Proof.
  intros H. revert m.
  induction H as [host Hok | env c s _ IH].
  - revert Hok. unfold06_main.
    destruct (font_found host), (gpio_works host),
      (audio_library host) as [names|];
      try (cbn; discriminate);
      destruct (flat_map (fun ext => glob_sorted ext names)
                  Luffy06.extensions) as [|f files];
      try (cbn; discriminate);
      destruct (py_index (f :: files)
                  (Luffy06.randint host 0
                     (Z.of_nat (List.length (f :: files)) - 1))) eqn:E;
      cbn -[Luffy06.randint py_index Z.of_nat List.length];
      rewrite E; cbn -[Luffy06.randint py_index Z.of_nat List.length];
      intros _ m Hm; discriminate Hm.
  - now apply one_subscription_kept.
Qed.

Lemma at_most_one_subscription_witness :
  exists m,
    Luffy06.current_media
      (Luffy06.steps
         (calmly [Luffy06.ButtonCallback (pin_of PlayPause);
                  Luffy06.ButtonCallback (pin_of Next);
                  Luffy06.ButtonCallback (pin_of Next)])
         start06) = Some m
    /\ (Luffy06.state_changed m <= 1)%nat.
Proof.
  eexists. split; [reflexivity|].
  refine (at_most_one_subscription
            (Luffy06.steps
               (calmly [Luffy06.ButtonCallback (pin_of PlayPause);
                        Luffy06.ButtonCallback (pin_of Next);
                        Luffy06.ButtonCallback (pin_of Next)])
               start06) _ _ eq_refl).
  apply reachable_steps_06, start06_reachable.
Defined.

Lemma end_callbacks_kept env e s :
  (vlc.end_reached (Luffy03.player s)
   <= vlc.end_reached (Luffy03.player (Luffy03.step env e s)))%nat.
Proof.
  assert (Hp : forall p, vlc.end_reached (vlc.play p) = vlc.end_reached p)
    by (intros p; unfold vlc.play; destruct (vlc.media p); reflexivity).
  assert (Hq : forall p, vlc.end_reached (vlc.pause p) = vlc.end_reached p)
    by (intros p; unfold vlc.pause; destruct (vlc.state p); reflexivity).
  destruct e as [[| | |]|]; unfold03; run_all;
    rewrite ?Hp, ?Hq; auto using le_n, le_S.
Qed.

Lemma next_while_playing_03 env s :
  quiet env ->
  in_range (Luffy03.audio_files s) (Luffy03.current_track_index s) ->
  Luffy03.is_playing s = true ->
  let s' := Luffy03.step env (ButtonPressed Next) s in
  Luffy03.is_playing s' = true
  /\ in_range (Luffy03.audio_files s') (Luffy03.current_track_index s')
  /\ vlc.end_reached (Luffy03.player s')
     = S (vlc.end_reached (Luffy03.player s))
  /\ vlc.media (Luffy03.player s')
     = py_index (Luffy03.audio_files s')
         (Luffy03.current_track_index s').
Proof.
  intros Q Hi Hp.
  pose proof (in_range_nonempty _ _ Hi) as Hne.
  pose proof (length_eqb_nonempty _ Hne) as Hlen.
  pose proof (mod_in_range _ (Luffy03.current_track_index s) Hne) as Hi'.
  destruct (py_index_in_range _ _ Hi') as [g Hg].
  unfold03. py_run.
  split; [reflexivity|]. split; [exact Hi'|].
  split; [reflexivity | symmetry; exact Hg].
Qed.

(** X6.  luffy03: [start_playback] attaches [on_media_end] to the player
    once more each time it succeeds, and no code detaches it.  So no
    callback ever lowers the number of attached end-of-media callbacks,
    and a run of presses of Next while playing (the engine answering)
    raises it by the number of presses. *)
Theorem end_callbacks_pile_up envs s :
  Forall quiet envs ->
  in_range (Luffy03.audio_files s) (Luffy03.current_track_index s) ->
  Luffy03.is_playing s = true ->
  vlc.end_reached (Luffy03.player (Luffy03.steps (presses Next envs) s))
  = (vlc.end_reached (Luffy03.player s) + List.length envs)%nat
  /\ forall env e,
       (vlc.end_reached (Luffy03.player s)
        <= vlc.end_reached (Luffy03.player (Luffy03.step env e s)))%nat.
Proof.
  intros Hq Hi Hp. split; [|intros env e; apply end_callbacks_kept].
  revert s Hi Hp. induction Hq as [|env envs Q _ IH]; intros s Hi Hp.
  - cbn. now rewrite Nat.add_0_r.
  - destruct (next_while_playing_03 env s Q Hi Hp) as (Hp' & Hi' & He & _).
    cbn [presses map Luffy03.steps]. fold (presses Next envs).
    rewrite (IH _ Hi' Hp'). cbv zeta in He. rewrite He.
    cbn [List.length]. now rewrite Nat.add_succ_r.
Qed.

Lemma end_callbacks_pile_up_witness :
  let s := Luffy03.step no_fault (ButtonPressed PlayPause) start03 in
  vlc.end_reached
    (Luffy03.player
       (Luffy03.steps (presses Next [no_fault; no_fault; no_fault]) s))
  = 4%nat.
Proof.
  cbv zeta.
  refine (proj1 (end_callbacks_pile_up [no_fault; no_fault; no_fault]
                   (Luffy03.step no_fault (ButtonPressed PlayPause) start03)
                   _ _ _)).
  - repeat constructor; apply no_fault_quiet.
  - unfold in_range; vm_compute; split; [discriminate | reflexivity].
  - reflexivity.
Defined.

(** ** The panel *)

(** X7.  luffy03: when the engine answers its calls, every callback ends
    with the panel up to date: the newest frame shows the track, the
    playing colour, the volume and the position line of the state the
    callback leaves. *)
Theorem panel_up_to_date_03 env e s :
  quiet env ->
  in_range (Luffy03.audio_files s) (Luffy03.current_track_index s) ->
  let s' := Luffy03.step env e s in
  hd_error (Luffy03.display s') = snapshot03 s'
  /\ snapshot03 s' <> None.
Proof.
  intros Q Hi.
  pose proof (in_range_nonempty _ _ Hi) as Hne.
  pose proof (length_eqb_nonempty _ Hne) as Hlen.
  destruct (py_index_in_range _ _ Hi) as [f Hf].
  destruct (py_index_in_range _ _
              (mod_in_range _ (Luffy03.current_track_index s) Hne))
    as [g Hg].
  unfold snapshot03.
  destruct e as [[| | |]|]; unfold03;
    destruct (Luffy03.is_playing s) eqn:Ep;
    destruct (vlc.media (Luffy03.player s)) eqn:Em;
    py_run; rewrite ?media_play, ?media_pause, ?Em, ?Hf, ?Hg, ?Ep; cbn;
    (split; [reflexivity | discriminate]).
Qed.

Lemma panel_up_to_date_03_witness :
  let s' := Luffy03.step no_fault (ButtonPressed Next)
              (Luffy03.step no_fault (ButtonPressed PlayPause) start03) in
  hd_error (Luffy03.display s')
  = Some {| track_name := "two.mp3"; green := true; shown_volume := 50;
            time_line := true |}.
Proof.
  cbv zeta.
  refine (eq_trans
            (proj1 (panel_up_to_date_03 no_fault (ButtonPressed Next)
                      (Luffy03.step no_fault (ButtonPressed PlayPause) start03)
                      no_fault_quiet _)) _).
  - unfold in_range; vm_compute; split; [discriminate | reflexivity].
  - reflexivity.
Defined.

(** X8.  luffy03: [adjust_volume] writes [self.volume] before it calls
    the engine.  When [audio_set_volume] raises, the error is logged and
    the callback returns, but the attribute has moved while the engine's
    volume and the panel have not: no frame is drawn. *)
Theorem refused_volume_moves_attribute_only env s b :
  volume_button b = true ->
  env AudioSetVolume = true ->
  let r := Luffy03.handler env (ButtonPressed b) s in
  fst r = Return tt
  /\ Luffy03.volume (snd r)
     = Z.max 0 (Z.min 100 (Luffy03.volume s
                           + match b with VolumeUp => 5 | _ => -5 end))
  /\ vlc.audio_volume (Luffy03.player (snd r))
     = vlc.audio_volume (Luffy03.player s)
  /\ Luffy03.display (snd r) = Luffy03.display s
  /\ Luffy03.log (snd r)
     = {| levelname := ERROR;
          msg := ErrorAdjustingVolume (VlcError AudioSetVolume) |}
         :: Luffy03.log s.
Proof.
  intros Hb He.
  destruct b; try discriminate Hb; unfold03; py_run; repeat split.
Qed.

Lemma refused_volume_moves_attribute_only_witness :
  let s' := Luffy03.step (fault_at AudioSetVolume) (ButtonPressed VolumeUp)
              start03 in
  Luffy03.volume s' = 55
  /\ Luffy03.display s' = Luffy03.display start03.
Proof.
  cbv zeta.
  pose proof (refused_volume_moves_attribute_only (fault_at AudioSetVolume)
                start03 VolumeUp eq_refl eq_refl) as (_ & Hv & _ & Hd & _).
  split; [exact Hv | exact Hd].
Defined.

Lemma press_enqueues_06 env b s :
  quiet env ->
  in_range (Luffy06.audio_files s) (Luffy06.current_track_index s) ->
  let s' := Luffy06.step env (Luffy06.ButtonCallback (pin_of b)) s in
  Luffy06.event_queue s'
  = (Luffy06.event_queue s ++ ["UPDATE_DISPLAY"%string])%list
  /\ Luffy06.display s' = Luffy06.display s
  /\ Luffy06.running s' = Luffy06.running s
  /\ in_range (Luffy06.audio_files s') (Luffy06.current_track_index s').
Proof.
  intros Q Hi.
  pose proof (in_range_nonempty _ _ Hi) as Hne.
  pose proof (length_eqb_nonempty _ Hne) as Hlen.
  pose proof (mod_in_range _ (Luffy06.current_track_index s) Hne) as Hi'.
  destruct (py_index_in_range _ _ Hi) as [f Hf].
  destruct (py_index_in_range _ _ Hi') as [g Hg].
  destruct b; unfold06;
    destruct (Luffy06.is_playing s) eqn:Ep;
    destruct (vlc.media (Luffy06.player s)) eqn:Em;
    destruct (Luffy06.current_media s) eqn:Ec;
    py_run; (split; [reflexivity|]); (split; [reflexivity|]);
    (split; [reflexivity | assumption]).
Qed.

Lemma drain_draws_06 env s rest :
  quiet env ->
  Luffy06.running s = true ->
  Luffy06.event_queue s = ("UPDATE_DISPLAY" :: rest)%string ->
  in_range (Luffy06.audio_files s) (Luffy06.current_track_index s) ->
  let s' := Luffy06.step env Luffy06.DrainLoop s in
  Luffy06.event_queue s' = rest
  /\ snapshot06 s <> None
  /\ hd_error (Luffy06.display s') = snapshot06 s
  /\ tl (Luffy06.display s') = Luffy06.display s.
Proof.
  intros Q Hr Hq Hi.
  destruct (py_index_in_range _ _ Hi) as [f Hf].
  unfold snapshot06.
  destruct (Luffy06.is_playing s) eqn:Ep;
    destruct (vlc.media (Luffy06.player s)) eqn:Em;
    unfold06; py_run; rewrite ?Hf, ?Ep, ?Em; cbn;
    repeat split; try reflexivity; discriminate.
Qed.

(** X9.  luffy06: with the engine answering, every button callback puts
    exactly one UPDATE_DISPLAY on the queue and draws nothing itself;
    when the queue was empty, the drain loop's next turn takes that item
    and draws one frame, which shows the state the callback left. *)
Theorem one_refresh_per_press env b s :
  quiet env ->
  in_range (Luffy06.audio_files s) (Luffy06.current_track_index s) ->
  let s' := Luffy06.step env (Luffy06.ButtonCallback (pin_of b)) s in
  let s'' := Luffy06.step env Luffy06.DrainLoop s' in
  Luffy06.event_queue s'
  = (Luffy06.event_queue s ++ ["UPDATE_DISPLAY"%string])%list
  /\ Luffy06.display s' = Luffy06.display s
  /\ (Luffy06.running s = true -> Luffy06.event_queue s = [] ->
      Luffy06.event_queue s'' = []
      /\ snapshot06 s' <> None
      /\ hd_error (Luffy06.display s'') = snapshot06 s'
      /\ tl (Luffy06.display s'') = Luffy06.display s).
Proof.
  intros Q Hi s' s''.
  destruct (press_enqueues_06 env b s Q Hi) as (Hq & Hd & Hr & Hi').
  fold s' in Hq, Hd, Hr, Hi'.
  split; [exact Hq|]. split; [exact Hd|].
  intros Hrun Hempty. rewrite Hempty in Hq. rewrite Hrun in Hr.
  destruct (drain_draws_06 env s' [] Q Hr Hq Hi') as (H1 & H2 & H3 & H4).
  fold s'' in H1, H3, H4. rewrite Hd in H4. auto.
Qed.

Lemma one_refresh_per_press_witness :
  let s' := Luffy06.step no_fault (Luffy06.ButtonCallback (pin_of VolumeDown))
              start06 in
  Luffy06.event_queue s' = ["UPDATE_DISPLAY"%string]
  /\ Luffy06.display s' = Luffy06.display start06.
Proof.
  cbv zeta.
  assert (R6 : in_range (Luffy06.audio_files start06)
                 (Luffy06.current_track_index start06))
    by (unfold in_range; vm_compute; split; [discriminate | reflexivity]).
  pose proof (one_refresh_per_press no_fault VolumeDown start06
                no_fault_quiet R6) as (Hq & Hd & _).
  split; [exact Hq | exact Hd].
Defined.

(** X25.  luffy03: [update_display] asks the engine for the position only
    while playing with a media on the player, and sends the image to the
    panel last.  When the engine refuses [get_position] or [get_length]
    under a volume press in such a state, the press still sets the
    volume on the controller and on the engine and returns, but no frame
    is drawn: the panel keeps showing the old volume, and the log has the
    display error under the record of the adjustment. *)
Theorem refused_position_skips_the_frame env s b m :
  volume_button b = true ->
  Luffy03.is_playing s = true ->
  vlc.media (Luffy03.player s) = Some m ->
  in_range (Luffy03.audio_files s) (Luffy03.current_track_index s) ->
  env AudioSetVolume = false ->
  env GetMedia = false ->
  env GetPosition = true \/ env GetLength = true ->
  let r := Luffy03.handler env (ButtonPressed b) s in
  let v := Z.max 0 (Z.min 100 (Luffy03.volume s
                               + match b with VolumeUp => 5 | _ => -5 end)) in
  fst r = Return tt
  /\ Luffy03.volume (snd r) = v
  /\ vlc.audio_volume (Luffy03.player (snd r)) = v
  /\ Luffy03.display (snd r) = Luffy03.display s
  /\ exists c,
       Luffy03.log (snd r)
       = {| levelname := INFO; msg := VolumeAdjustedTo v |}
           :: {| levelname := ERROR;
                 msg := ErrorUpdatingDisplay (VlcError c) |}
           :: Luffy03.log s.
Proof.
  intros Hb Ep Em Hi Hv Hm Hq.
  destruct (py_index_in_range _ _ Hi) as [f Hf].
  destruct b; try discriminate Hb;
    destruct (env GetPosition) eqn:E2; destruct (env GetLength) eqn:E3;
    try (destruct Hq; discriminate);
    unfold03; py_run; repeat split; eexists; reflexivity.
Qed.

Lemma refused_position_skips_the_frame_witness :
  let s := Luffy03.step no_fault (ButtonPressed PlayPause) start03 in
  let s' := Luffy03.step (fault_at GetPosition) (ButtonPressed VolumeUp) s in
  Luffy03.volume s' = 55
  /\ Luffy03.display s' = Luffy03.display s.
Proof.
  cbv zeta.
  assert (Hi : in_range
                 (Luffy03.audio_files
                    (Luffy03.step no_fault (ButtonPressed PlayPause) start03))
                 (Luffy03.current_track_index
                    (Luffy03.step no_fault (ButtonPressed PlayPause) start03)))
    by (unfold in_range; vm_compute; split; [discriminate | reflexivity]).
  destruct (refused_position_skips_the_frame (fault_at GetPosition)
              (Luffy03.step no_fault (ButtonPressed PlayPause) start03)
              VolumeUp "audio_library/one.MP3"
              eq_refl eq_refl eq_refl Hi eq_refl eq_refl
              (or_introl eq_refl)) as (_ & Hv & _ & Hd & _).
  split; [exact Hv | exact Hd].
Defined.

(** ** Edges of the handlers *)

(** X10.  luffy06: taking a MEDIA_END item off the queue does to the
    player exactly what the Next button's callback does (both run
    [next_track] under the lock), whatever the status and whatever the
    engine does, provided the catalog is not empty. *)
Theorem media_end_item_same_as_next env s rest :
  Luffy06.running s = true ->
  Luffy06.event_queue s = ("MEDIA_END" :: rest)%string ->
  Luffy06.audio_files s <> [] ->
  Luffy06.step env Luffy06.DrainLoop s
  = Luffy06.step env (Luffy06.ButtonCallback (pin_of Next))
      (Luffy06.set_event_queue rest s).
Proof.
  intros Hr Hq Hne.
  pose proof (length_eqb_nonempty _ Hne) as Hlen.
  destruct (py_index_in_range _ _
              (mod_in_range _ (Luffy06.current_track_index s) Hne))
    as [g Hg].
  unfold06.
  destruct (Luffy06.is_playing s) eqn:Ep;
    destruct (Luffy06.current_media s) eqn:Ec;
    engine_cases env; reflexivity.
Qed.

Lemma media_end_item_same_as_next_witness :
  let ended := {| Luffy06.type := Luffy06.MediaStateChanged;
                  Luffy06.new_state := vlc.Ended |} in
  let s := Luffy06.step no_fault (Luffy06.EngineNotification ended) start06 in
  Luffy06.step no_fault Luffy06.DrainLoop s
  = Luffy06.step no_fault (Luffy06.ButtonCallback (pin_of Next))
      (Luffy06.set_event_queue [] s).
Proof.
  cbv zeta.
  refine (media_end_item_same_as_next no_fault _ [] _ _ _).
  - reflexivity.
  - reflexivity.
  - intros H; discriminate H.
Defined.

(** X11.  The label lookup of [handle_button] is outside its [try]: a
    callback for a line that is not one of the four buttons raises
    [ValueError] out of the handler and leaves the player untouched, in
    luffy03, luffy06 and luffy01 alike. *)
Theorem unknown_pin_raises env env1 pin s3 s6 s1 :
  ~ In pin BUTTONS ->
  Luffy03.handle_button env pin s3 = (Raise (Exception ValueError), s3)
  /\ Luffy06.handle_button env pin s6 = (Raise (Exception ValueError), s6)
  /\ Luffy01.handle_button env1 pin s1 = (Raise (Exception ValueError), s1).
Proof.
  intros H.
  assert (E : list_index pin BUTTONS = None).
  { unfold BUTTONS in *. cbn [list_index].
    destruct (Z.eqb_spec pin 5); [elim H; cbn; auto|].
    destruct (Z.eqb_spec pin 6); [elim H; cbn; auto|].
    destruct (Z.eqb_spec pin 16); [elim H; cbn; auto|].
    destruct (Z.eqb_spec pin 24); [elim H; cbn; auto 6|].
    reflexivity. }
  unfold Luffy03.handle_button, Luffy06.handle_button, Luffy01.handle_button.
  rewrite E. repeat split.
Qed.

Lemma unknown_pin_raises_witness :
  fst (Luffy03.handle_button no_fault 17 start03)
  = Raise (Exception ValueError).
Proof.
  refine (f_equal fst
            (proj1 (unknown_pin_raises no_fault (fun _ => false) 17
                      start03 start06
                      {| Luffy01.current_track_index := 0;
                         Luffy01.is_playing := false;
                         Luffy01.volume := 50;
                         Luffy01.audio_process := None;
                         Luffy01.audio_files := [];
                         Luffy01.master := 0;
                         Luffy01.display := [];
                         Luffy01.log := [] |} _))).
  cbn. intros [H|[H|[H|[H|[]]]]]; discriminate H.
Defined.

(** X12.  With an empty catalog [next_track] divides by zero before it
    changes anything.  Through the end-of-media callback of luffy03 the
    [ZeroDivisionError] leaves the handler; through the Next button it is
    caught and logged; either way the index stays where it was. *)
Theorem next_on_empty_catalog env s :
  Luffy03.audio_files s = [] ->
  Luffy03.handler env MediaEnded s = (Raise (Exception ZeroDivisionError), s)
  /\ Luffy03.handler env (ButtonPressed Next) s
     = (Return tt,
        Luffy03.emit ERROR (ErrorHandlingButtonPress ZeroDivisionError) s).
Proof.
  intros H. unfold03. unfold Luffy03.handler, Luffy03.handle_button.
  cbn. unfold03. cbn. rewrite H. cbn. split; reflexivity.
Qed.

Lemma next_on_empty_catalog_witness :
  Luffy03.current_track_index
    (snd (Luffy03.handler no_fault (ButtonPressed Next) Luffy03.fresh)) = 0.
Proof.
  rewrite (proj2 (next_on_empty_catalog no_fault Luffy03.fresh eq_refl)).
  reflexivity.
Defined.

(** X13.  [stop_playback] of luffy03 has no [try].  When the engine
    stops, [is_playing] is cleared, the media stays on the player and
    one frame is drawn (when the index names a track); when [stop()]
    raises, the exception leaves [stop_playback] with the player
    untouched, [is_playing] included. *)
Theorem stop_playback_03 env s :
  in_range (Luffy03.audio_files s) (Luffy03.current_track_index s) ->
  let r := Luffy03.stop_playback env s in
  if env Stop
  then r = (Raise (Exception (VlcError Stop)), s)
  else fst r = Return tt
       /\ Luffy03.is_playing (snd r) = false
       /\ vlc.state (Luffy03.player (snd r)) = vlc.Stopped
       /\ vlc.media (Luffy03.player (snd r)) = vlc.media (Luffy03.player s)
       /\ Luffy03.current_track_index (snd r) = Luffy03.current_track_index s
       /\ Luffy03.volume (snd r) = Luffy03.volume s
       /\ List.length (Luffy03.display (snd r))
          = S (List.length (Luffy03.display s)).
Proof.
  intros Hi. destruct (py_index_in_range _ _ Hi) as [f Hf].
  unfold Luffy03.stop_playback. unfold03.
  destruct (env Stop) eqn:E; py_run; repeat split.
Qed.

Lemma stop_playback_03_witness :
  let s := Luffy03.step no_fault (ButtonPressed PlayPause) start03 in
  Luffy03.is_playing (snd (Luffy03.stop_playback no_fault s)) = false
  /\ Luffy03.stop_playback (fault_at Stop) s
     = (Raise (Exception (VlcError Stop)), s).
Proof.
  cbv zeta.
  assert (R : in_range
                (Luffy03.audio_files
                   (Luffy03.step no_fault (ButtonPressed PlayPause) start03))
                (Luffy03.current_track_index
                   (Luffy03.step no_fault (ButtonPressed PlayPause) start03)))
    by (unfold in_range; vm_compute; split; [discriminate | reflexivity]).
  split.
  - exact (proj1 (proj2 (stop_playback_03 no_fault _ R))).
  - exact (stop_playback_03 (fault_at Stop) _ R).
Defined.

(** ** How the callbacks compose *)

(** X14.  luffy03: in a well-formed state, with the engine answering and
    in agreement with the controller (playing when the status is Playing,
    paused when it is Paused), two presses of Play/Pause in a row bring
    back the same status, engine state, track and volume; two frames
    were drawn. *)
Theorem play_pause_twice_03 env1 env2 s :
  quiet env1 -> quiet env2 ->
  Luffy03.well_formed s ->
  (Luffy03.status s = Playing /\ vlc.state (Luffy03.player s) = vlc.Playing)
  \/ (Luffy03.status s = Paused /\ vlc.state (Luffy03.player s) = vlc.Paused) ->
  let s' := Luffy03.step env2 (ButtonPressed PlayPause)
              (Luffy03.step env1 (ButtonPressed PlayPause) s) in
  Luffy03.status s' = Luffy03.status s
  /\ Luffy03.player s' = Luffy03.player s
  /\ Luffy03.current_track_index s' = Luffy03.current_track_index s
  /\ Luffy03.volume s' = Luffy03.volume s
  /\ List.length (Luffy03.display s')
     = S (S (List.length (Luffy03.display s))).
Proof.
  intros Q1 Q2 [Hi Hv Hc] Hs.
  destruct (py_index_in_range _ _ Hi) as [f Hf].
  unfold Luffy03.status, Luffy03.consistent in *.
  destruct s as [files idx playing vol [media st av er] disp lg].
  cbn in *.
  destruct Hs as [[Hst He] | [Hst He]]; subst st;
    destruct playing; try discriminate Hst;
    destruct media as [m|]; try discriminate Hst;
    try (now elim (Hc eq_refl));
    unfold03; py_run; unfold vlc.play, vlc.pause; cbn; repeat split.
Qed.

Lemma play_pause_twice_03_witness :
  let s := Luffy03.step no_fault (ButtonPressed PlayPause) start03 in
  Luffy03.player
    (Luffy03.step no_fault (ButtonPressed PlayPause)
       (Luffy03.step no_fault (ButtonPressed PlayPause) s))
  = Luffy03.player s.
Proof.
  cbv zeta.
  refine (proj1 (proj2 (play_pause_twice_03 no_fault no_fault
                          (Luffy03.step no_fault (ButtonPressed PlayPause)
                             start03)
                          no_fault_quiet no_fault_quiet _ _))).
  - apply step_well_formed_03, start03_well_formed.
  - left. split; reflexivity.
Defined.

(** X15.  luffy03: while nothing has been loaded yet (status Stopped), a
    press of Next followed by a press of Play/Pause, the engine
    answering, starts the track the index was moved to: the media on the
    player is the track at the new index. *)
Theorem next_then_play_from_stopped_03 env1 env2 s :
  quiet env1 -> quiet env2 ->
  in_range (Luffy03.audio_files s) (Luffy03.current_track_index s) ->
  Luffy03.status s = Stopped ->
  let s' := Luffy03.step env2 (ButtonPressed PlayPause)
              (Luffy03.step env1 (ButtonPressed Next) s) in
  Luffy03.status s' = Playing
  /\ Luffy03.current_track_index s'
     = (Luffy03.current_track_index s + 1)
         mod Z.of_nat (List.length (Luffy03.audio_files s))
  /\ vlc.media (Luffy03.player s')
     = py_index (Luffy03.audio_files s') (Luffy03.current_track_index s')
  /\ vlc.media (Luffy03.player s') <> None.
Proof.
  intros Q1 Q2 Hi St.
  pose proof (in_range_nonempty _ _ Hi) as Hne.
  pose proof (length_eqb_nonempty _ Hne) as Hlen.
  destruct (py_index_in_range _ _
              (mod_in_range _ (Luffy03.current_track_index s) Hne))
    as [g Hg].
  unfold Luffy03.status in *.
  destruct (Luffy03.is_playing s) eqn:Ep; [discriminate|].
  destruct (vlc.media (Luffy03.player s)) eqn:Em; [discriminate|].
  unfold03. py_run. rewrite ?Hg.
  repeat split; try reflexivity. discriminate.
Qed.

Lemma next_then_play_from_stopped_03_witness :
  vlc.media
    (Luffy03.player
       (Luffy03.step no_fault (ButtonPressed PlayPause)
          (Luffy03.step no_fault (ButtonPressed Next) start03)))
  = Some "audio_library/two.mp3"%string.
Proof.
  refine (eq_trans
            (proj1 (proj2 (proj2
               (next_then_play_from_stopped_03 no_fault no_fault start03
                  no_fault_quiet no_fault_quiet _ eq_refl)))) _).
  - unfold in_range; vm_compute; split; [discriminate | reflexivity].
  - reflexivity.
Defined.

Lemma engine_volume_kept_03 env e s :
  quiet env ->
  (vlc.media (Luffy03.player s) <> None ->
   vlc.audio_volume (Luffy03.player s) = Luffy03.volume s) ->
  vlc.media (Luffy03.player (Luffy03.step env e s)) <> None ->
  vlc.audio_volume (Luffy03.player (Luffy03.step env e s))
  = Luffy03.volume (Luffy03.step env e s).
Proof.
  intros Q H.
  assert (Hp : forall p, vlc.audio_volume (vlc.play p) = vlc.audio_volume p)
    by (intros p; unfold vlc.play; destruct (vlc.media p); reflexivity).
  assert (Hq : forall p, vlc.audio_volume (vlc.pause p) = vlc.audio_volume p)
    by (intros p; unfold vlc.pause; destruct (vlc.state p); reflexivity).
  destruct e as [[| | |]|]; unfold03; run_all;
    rewrite ?Hp, ?Hq, ?media_play, ?media_pause;
    try reflexivity; try assumption;
    try (intros _; apply H; congruence);
    try (intros HH; now elim HH).
Qed.

(** X16.  luffy03: as long as the engine answers its calls, whenever the
    player holds a media the engine's volume is the controller's
    [volume]: [start_playback] sets it before playing and [adjust_volume]
    sets it on every press. *)
Theorem engine_volume_in_step_03 es s :
  Forall (fun x => quiet (fst x)) es ->
  vlc.media (Luffy03.player s) = None ->
  let s' := Luffy03.steps es s in
  vlc.media (Luffy03.player s') <> None ->
  vlc.audio_volume (Luffy03.player s') = Luffy03.volume s'.
Proof.
  intros Hq Hm.
  assert (H : vlc.media (Luffy03.player s) <> None ->
              vlc.audio_volume (Luffy03.player s) = Luffy03.volume s)
    by (intros HH; now elim HH).
  clear Hm. revert s H.
  induction Hq as [|[env e] es Q _ IH]; intros s H; [exact H|].
  cbn [Luffy03.steps]. apply IH. now apply engine_volume_kept_03.
Qed.

Lemma engine_volume_in_step_03_witness :
  vlc.audio_volume
    (Luffy03.player
       (Luffy03.steps
          (calmly [ButtonPressed VolumeUp; ButtonPressed PlayPause;
                   ButtonPressed VolumeDown; ButtonPressed VolumeDown])
          start03))
  = 45.
Proof.
  refine (eq_trans
            (engine_volume_in_step_03
               (calmly [ButtonPressed VolumeUp; ButtonPressed PlayPause;
                        ButtonPressed VolumeDown; ButtonPressed VolumeDown])
               start03 _ eq_refl _) _).
  - repeat constructor; apply no_fault_quiet.
  - intros H; discriminate H.
  - reflexivity.
Defined.

(** ** The catalog built at start-up *)

Lemma insert_sorted_perm x l : Permutation (x :: l) (insert_sorted x l).
Proof.
  induction l as [|y l IH]; cbn; [reflexivity|].
  destruct (String.leb x y); [reflexivity|].
  rewrite perm_swap. now constructor.
Qed.

Lemma sorted_perm l : Permutation l (sorted l).
Proof.
  induction l as [|x l IH]; cbn; [constructor|].
  rewrite <- insert_sorted_perm. now constructor.
Qed.

Lemma leb_flip x y : String.leb x y = false -> String.leb y x = true.
Proof.
  intros H. destruct (String.leb_total x y) as [E|E]; [congruence | exact E].
Qed.

Lemma insert_sorted_keeps_order x l :
  Sorted (fun a b => String.leb a b = true) l ->
  Sorted (fun a b => String.leb a b = true) (insert_sorted x l).
Proof.
  induction 1 as [|y l Hs IH Hh]; cbn; [repeat constructor|].
  destruct (String.leb x y) eqn:E.
  - constructor; [now constructor | now constructor].
  - constructor; [exact IH|].
    destruct l as [|z l]; cbn.
    + constructor. now apply leb_flip.
    + destruct (String.leb x z); constructor;
        [now apply leb_flip | now inversion Hh].
Qed.

Lemma sorted_in_order l :
  Sorted (fun a b => String.leb a b = true) (sorted l).
Proof.
  induction l as [|x l IH]; cbn; [constructor|].
  now apply insert_sorted_keeps_order.
Qed.

Lemma glob_sorted_perm ext names :
  Permutation (map library_path (filter (fnmatch ext) names))
    (glob_sorted ext names).
Proof. unfold glob_sorted. apply sorted_perm. Qed.

(** What [load_audio_files] leaves in [audio_files], found or not. *)
Lemma loaded_catalog_03 host names :
  gpio_works host = true ->
  audio_library host = Some names ->
  Luffy03.audio_files (snd (Luffy03.main host))
  = flat_map (fun ext => glob_sorted ext names) Luffy03.extensions.
Proof.
  intros Hg Hl. unfold03_main. rewrite Hg, Hl.
  destruct (font_found host);
    destruct (flat_map (fun ext => glob_sorted ext names) Luffy03.extensions)
      as [|f files]; cbn; try reflexivity;
    destruct (py_index (f :: files) 0); reflexivity.
Qed.

(** *** Patterns *)

Lemma fnmatch_star_nil p : fnmatch (Star :: p) "" = fnmatch p "".
Proof. cbn. apply orb_false_r. Qed.

Lemma fnmatch_star_cons p c r :
  fnmatch (Star :: p) (String c r)
  = fnmatch p (String c r) || fnmatch (Star :: p) r.
Proof. reflexivity. Qed.

(** A leading [*] lets the rest of the pattern match any suffix. *)
Lemma fnmatch_star p name :
  fnmatch (Star :: p) name = true
  <-> exists pre suf, name = (pre ++ suf)%string /\ fnmatch p suf = true.
Proof.
  induction name as [|c r IH].
  - rewrite fnmatch_star_nil. split.
    + intros H. now exists ""%string, ""%string.
    + intros (pre & suf & E & H). destruct pre; [|discriminate E].
      cbn in E. now subst suf.
  - rewrite fnmatch_star_cons, orb_true_iff, IH. split.
    + intros [H | (pre & suf & E & H)].
      * now exists ""%string, (String c r).
      * exists (String c pre), suf. cbn. now rewrite E.
    + intros (pre & suf & E & H). destruct pre as [|d pre].
      * left. cbn in E. now subst suf.
      * right. cbn in E. injection E as -> ->. now exists pre, suf.
Qed.

(** Both letter cases of a class of the patterns lower to its letter. *)
Lemma in_class_lower a lo up :
  (lo, up) = ("m", "M")%char \/ (lo, up) = ("p", "P")%char
  \/ (lo, up) = ("w", "W")%char \/ (lo, up) = ("a", "A")%char
  \/ (lo, up) = ("v", "V")%char \/ (lo, up) = ("c", "C")%char ->
  in_class a (String lo (String up "")) = true
  <-> Luffy01.lower_char a = lo.
Proof.
  intros H.
  assert (E : in_class a (String lo (String up ""))
              = Ascii.eqb (Luffy01.lower_char a) lo).
  { destruct H as [H|[H|[H|[H|[H|H]]]]]; injection H as -> ->;
      destruct a as [[] [] [] [] [] [] [] []]; reflexivity. }
  rewrite E. apply Ascii.eqb_eq.
Qed.

Lemma digit_lower a d :
  d = "3"%char \/ d = "4"%char ->
  Ascii.eqb d a = true <-> Luffy01.lower_char a = d.
Proof.
  intros H.
  assert (E : Ascii.eqb d a = Ascii.eqb (Luffy01.lower_char a) d).
  { destruct H as [-> | ->];
      destruct a as [[] [] [] [] [] [] [] []]; reflexivity. }
  rewrite E. apply Ascii.eqb_eq.
Qed.

Lemma lower_length3 e a b c :
  Luffy01.lower e = String a (String b (String c "")) ->
  exists x y z,
    e = String x (String y (String z ""))
    /\ Luffy01.lower_char x = a /\ Luffy01.lower_char y = b
    /\ Luffy01.lower_char z = c.
Proof.
  destruct e as [|x [|y [|z [|? ?]]]]; cbn; intros H; try discriminate H.
  injection H as <- <- <-. now exists x, y, z.
Qed.

Ltac letters :=
  repeat match goal with
         | H : in_class _ _ = true |- _ =>
             apply in_class_lower in H; [|tauto]
         | H : Ascii.eqb "3" _ = true |- _ => apply digit_lower in H; [|tauto]
         | H : Ascii.eqb "4" _ = true |- _ => apply digit_lower in H; [|tauto]
         | H : Ascii.eqb "." _ = true |- _ => apply Ascii.eqb_eq in H
         end.

Ltac extension_pattern :=
  let H := fresh "H" in
  split;
  [ intros H; apply fnmatch_star in H as (pre & suf & -> & H);
    destruct suf as [|d [|x [|y [|z [|? ?]]]]];
    cbn [fnmatch] in H; rewrite ?andb_false_r in H; try discriminate H;
    repeat (apply andb_true_iff in H as [? H]); letters; subst;
    exists pre, (String x (String y (String z "")));
    split; [reflexivity | left; cbn [Luffy01.lower]; congruence]
  | intros (stem & e & -> & [H | []]); symmetry in H;
    apply lower_length3 in H as (x & y & z & -> & Hx & Hy & Hz);
    apply fnmatch_star;
    exists stem, ("." ++ String x (String y (String z "")))%string;
    split; [reflexivity|];
    cbn [fnmatch append];
    repeat (apply andb_true_iff; split);
    first [ reflexivity
          | apply in_class_lower; [tauto | assumption]
          | apply digit_lower; [tauto | assumption] ] ].

Lemma pattern_mp3 name :
  fnmatch [Star; Lit "."; Class "mM"; Class "pP"; Lit "3"] name = true
  <-> has_extension ["mp3"%string] name.
Proof. extension_pattern. Qed.

Lemma pattern_wav name :
  fnmatch [Star; Lit "."; Class "wW"; Class "aA"; Class "vV"] name = true
  <-> has_extension ["wav"%string] name.
Proof. extension_pattern. Qed.

Lemma pattern_m4a name :
  fnmatch [Star; Lit "."; Class "mM"; Lit "4"; Class "aA"] name = true
  <-> has_extension ["m4a"%string] name.
Proof. extension_pattern. Qed.

Lemma pattern_aac name :
  fnmatch [Star; Lit "."; Class "aA"; Class "aA"; Class "cC"] name = true
  <-> has_extension ["aac"%string] name.
Proof. extension_pattern. Qed.

Lemma has_extension_one ext exts name :
  In ext exts -> has_extension [ext] name -> has_extension exts name.
Proof.
  intros Hin (stem & e & E & [H | []]). exists stem, e. split; [exact E|].
  now rewrite <- H.
Qed.

Lemma recognized_extension name :
  recognized name = true
  <-> has_extension ["mp3"; "wav"; "m4a"; "aac"]%string name.
Proof.
  unfold recognized. rewrite existsb_exists. split.
  - intros (ext & Hin & H). unfold Luffy03.extensions in Hin.
    destruct Hin as [<- | [<- | [<- | [<- | []]]]].
    + apply pattern_mp3 in H. revert H. apply has_extension_one. cbn. auto.
    + apply pattern_wav in H. revert H. apply has_extension_one. cbn. auto.
    + apply pattern_m4a in H. revert H. apply has_extension_one. cbn. auto.
    + apply pattern_aac in H. revert H. apply has_extension_one. cbn. auto.
  - intros (stem & e & E & Hin).
    destruct Hin as [H | [H | [H | [H | []]]]].
    + eexists. split; [left; reflexivity|].
      apply pattern_mp3. exists stem, e. split; [exact E | now left].
    + eexists. split; [right; left; reflexivity|].
      apply pattern_wav. exists stem, e. split; [exact E | now left].
    + eexists. split; [right; right; left; reflexivity|].
      apply pattern_m4a. exists stem, e. split; [exact E | now left].
    + eexists. split; [right; right; right; left; reflexivity|].
      apply pattern_aac. exists stem, e. split; [exact E | now left].
Qed.

Lemma in_loaded names path :
  In path (flat_map (fun ext => glob_sorted ext names) Luffy03.extensions)
  <-> exists name,
        In name names /\ recognized name = true /\ path = library_path name.
Proof.
  rewrite in_flat_map. split.
  - intros (ext & Hext & Hin).
    apply (Permutation_in _ (Permutation_sym (glob_sorted_perm ext names)))
      in Hin.
    apply in_map_iff in Hin as (name & <- & Hf).
    apply filter_In in Hf as [Hn Hm].
    exists name. split; [exact Hn|]. split; [|reflexivity].
    unfold recognized. apply existsb_exists. now exists ext.
  - intros (name & Hn & Hr & ->).
    unfold recognized in Hr. apply existsb_exists in Hr as (ext & Hext & Hm).
    exists ext. split; [exact Hext|].
    apply (Permutation_in _ (glob_sorted_perm ext names)).
    apply in_map. apply filter_In. now split.
Qed.

(** X17.  A file of the directory is in the catalog luffy03 loads exactly
    when its name is [stem.ext] with [ext] one of mp3, wav, m4a, aac in
    any mix of upper and lower case; its path in the catalog is
    [audio_library/] followed by the name. *)
Theorem catalog_holds_the_audio_files host names path :
  gpio_works host = true ->
  audio_library host = Some names ->
  In path (Luffy03.audio_files (snd (Luffy03.main host)))
  <-> exists name,
        In name names
        /\ has_extension ["mp3"; "wav"; "m4a"; "aac"]%string name
        /\ path = library_path name.
Proof.
  intros Hg Hl. rewrite (loaded_catalog_03 host names Hg Hl), in_loaded.
  split; intros (name & Hn & Hr & E); exists name;
    (split; [exact Hn|]); (split; [|exact E]);
    now apply recognized_extension.
Qed.

Lemma catalog_holds_the_audio_files_witness :
  In "audio_library/one.MP3"%string (Luffy03.audio_files start03)
  /\ ~ In "audio_library/notes.txt"%string (Luffy03.audio_files start03).
Proof.
  split.
  - apply (proj2 (catalog_holds_the_audio_files demo_host
                    ["two.mp3"; "notes.txt"; "one.MP3"; "three.wav";
                     "four.m4a"]%string
                    "audio_library/one.MP3"%string eq_refl eq_refl)).
    exists "one.MP3"%string. split; [cbn; auto|]. split; [|reflexivity].
    exists "one"%string, "MP3"%string. split; [reflexivity | now left].
  - intros H. vm_compute in H. intuition discriminate.
Defined.

(** X18.  The catalog of luffy03 is ordered by type first: the mp3 files,
    then the wav, the m4a and the aac files; within each type the paths
    are in ascending string order, and each type's part holds exactly the
    matching files of the directory (as a permutation, so as often as
    the directory lists them). *)
Theorem catalog_is_grouped_and_sorted host names :
  gpio_works host = true ->
  audio_library host = Some names ->
  exists mp3 wav m4a aac,
    Luffy03.audio_files (snd (Luffy03.main host)) = mp3 ++ wav ++ m4a ++ aac
    /\ Forall (Sorted (fun a b => String.leb a b = true)) [mp3; wav; m4a; aac]
    /\ Forall2 (fun part ext =>
                  Permutation
                    (map library_path (filter (fnmatch ext) names)) part)
         [mp3; wav; m4a; aac] Luffy03.extensions.
Proof.
  intros Hg Hl. rewrite (loaded_catalog_03 host names Hg Hl).
  unfold Luffy03.extensions. cbn [flat_map].
  do 4 eexists. split; [now rewrite app_nil_r|]. split.
  - repeat constructor; apply sorted_in_order.
  - repeat constructor; apply glob_sorted_perm.
Qed.

Lemma catalog_is_grouped_and_sorted_witness :
  Luffy03.audio_files
    (snd (Luffy03.main
            {| font_found := true; gpio_works := true;
               audio_library := Some ["b.wav"; "z.mp3"; "a.wav"; "c.MP3"]%string;
               entropy := 0 |}))
  = ["audio_library/c.MP3"; "audio_library/z.mp3";
     "audio_library/a.wav"; "audio_library/b.wav"]%string.
Proof.
  destruct (catalog_is_grouped_and_sorted
              {| font_found := true; gpio_works := true;
                 audio_library := Some ["b.wav"; "z.mp3"; "a.wav"; "c.MP3"]%string;
                 entropy := 0 |}
              ["b.wav"; "z.mp3"; "a.wav"; "c.MP3"]%string eq_refl eq_refl)
    as (mp3 & wav & m4a & aac & E & _).
  reflexivity.
Defined.

(** *** Every audio file once *)

Lemma length_append (s t : string) :
  String.length (s ++ t) = (String.length s + String.length t)%nat.
Proof. induction s as [|c s IH]; cbn; [reflexivity | now rewrite IH]. Qed.

Lemma length_lower (s : string) :
  String.length (Luffy01.lower s) = String.length s.
Proof. induction s as [|c s IH]; cbn; [reflexivity | now rewrite IH]. Qed.

(** Two ways of cutting a string before suffixes of one length are the
    same cut. *)
Lemma same_suffix (s1 s2 t1 t2 : string) :
  (s1 ++ t1)%string = (s2 ++ t2)%string ->
  String.length t1 = String.length t2 ->
  t1 = t2.
Proof.
  revert s2. induction s1 as [|c s1 IH]; intros [|d s2] E L; cbn in E.
  - exact E.
  - exfalso. apply (f_equal String.length) in E. cbn in E.
    rewrite length_append in E. lia.
  - exfalso. apply (f_equal String.length) in E. cbn in E.
    rewrite length_append in E. lia.
  - injection E as _ E. now apply (IH s2).
Qed.

Lemma one_extension name e1 e2 :
  has_extension [e1] name -> has_extension [e2] name ->
  String.length e1 = 3%nat -> String.length e2 = 3%nat ->
  e1 = e2.
Proof.
  intros (st1 & x1 & E1 & [H1 | []]) (st2 & x2 & E2 & [H2 | []]) L1 L2.
  subst e1 e2. rewrite length_lower in L1, L2.
  rewrite E1 in E2. apply same_suffix in E2.
  - injection E2 as E2. now rewrite E2.
  - cbn. now rewrite L1, L2.
Qed.

(** No name matches two of the four patterns. *)
Lemma patterns_exclusive name ext1 ext2 :
  In ext1 Luffy03.extensions -> In ext2 Luffy03.extensions ->
  fnmatch ext1 name = true -> fnmatch ext2 name = true ->
  ext1 = ext2.
Proof.
  unfold Luffy03.extensions.
  intros [<- | [<- | [<- | [<- | []]]]] [<- | [<- | [<- | [<- | []]]]] H1 H2;
    try reflexivity; exfalso;
    repeat match goal with
           | H : fnmatch _ _ = true |- _ =>
               first [ apply pattern_mp3 in H | apply pattern_wav in H
                     | apply pattern_m4a in H | apply pattern_aac in H ]
           end;
    pose proof (one_extension _ _ _ H1 H2 eq_refl eq_refl) as E;
    discriminate E.
Qed.

Lemma filter_either {A} (f g : A -> bool) (l : list A) :
  (forall x, In x l -> f x = true -> g x = false) ->
  Permutation (filter (fun x => f x || g x) l) (filter f l ++ filter g l).
Proof.
  induction l as [|x l IH]; intros H; [constructor|].
  assert (IH' : Permutation (filter (fun x => f x || g x) l)
                  (filter f l ++ filter g l))
    by (apply IH; intros y Hy; apply H; now right).
  cbn [filter].
  destruct (f x) eqn:Ef.
  - rewrite (H x (or_introl eq_refl) Ef). cbn. now constructor.
  - destruct (g x) eqn:Eg; cbn.
    + now apply Permutation_cons_app.
    + exact IH'.
Qed.

Lemma library_path_injective a b : library_path a = library_path b -> a = b.
Proof. unfold library_path. cbn. intros H. now injection H. Qed.

Lemma library_paths_distinct l : NoDup l -> NoDup (map library_path l).
Proof.
  induction 1 as [|n l Hnot _ IH]; cbn; constructor; [|exact IH].
  intros Hin. apply in_map_iff in Hin as (m & E & Hm).
  apply library_path_injective in E. now subst m.
Qed.

Lemma loaded_is_recognized names :
  Permutation
    (flat_map (fun ext => glob_sorted ext names) Luffy03.extensions)
    (map library_path (filter recognized names)).
Proof.
  assert (X : forall ext1 ext2 n,
             In ext1 Luffy03.extensions -> In ext2 Luffy03.extensions ->
             ext1 <> ext2 -> fnmatch ext1 n = true -> fnmatch ext2 n = false).
  { intros ext1 ext2 n I1 I2 Hd H1.
    destruct (fnmatch ext2 n) eqn:H2; [|reflexivity].
    now elim Hd; apply (patterns_exclusive n). }
  unfold Luffy03.extensions in *. cbn [flat_map].
  rewrite app_nil_r.
  rewrite <- !glob_sorted_perm.
  rewrite <- !map_app. apply Permutation_map.
  symmetry.
  set (mp3 := [Star; Lit "."; Class "mM"; Class "pP"; Lit "3"]) in *.
  set (wav := [Star; Lit "."; Class "wW"; Class "aA"; Class "vV"]) in *.
  set (m4a := [Star; Lit "."; Class "mM"; Lit "4"; Class "aA"]) in *.
  set (aac := [Star; Lit "."; Class "aA"; Class "aA"; Class "cC"]) in *.
  assert (D : mp3 <> wav /\ mp3 <> m4a /\ mp3 <> aac
              /\ wav <> m4a /\ wav <> aac /\ m4a <> aac)
    by (repeat split; discriminate).
  destruct D as (D1 & D2 & D3 & D4 & D5 & D6).
  transitivity
    (filter (fnmatch mp3) names
     ++ filter (fun n => fnmatch wav n
                         || (fnmatch m4a n || (fnmatch aac n || false)))
          names).
  { unfold recognized, Luffy03.extensions. cbn [existsb].
    fold mp3 wav m4a aac.
    apply (filter_either (fnmatch mp3)). intros n _ H.
    rewrite (X mp3 wav n), (X mp3 m4a n), (X mp3 aac n);
      cbn; auto 6. }
  apply Permutation_app_head.
  transitivity
    (filter (fnmatch wav) names
     ++ filter (fun n => fnmatch m4a n || (fnmatch aac n || false)) names).
  { apply (filter_either (fnmatch wav)). intros n _ H.
    rewrite (X wav m4a n), (X wav aac n); cbn; auto 6. }
  apply Permutation_app_head.
  transitivity
    (filter (fnmatch m4a) names
     ++ filter (fun n => fnmatch aac n || false) names).
  { apply (filter_either (fnmatch m4a)). intros n _ H.
    rewrite (X m4a aac n); cbn; auto 6. }
  apply Permutation_app_head.
  erewrite filter_ext; [reflexivity|].
  intros n. apply orb_false_r.
Qed.

(** X19.  The catalog luffy03 loads is a rearrangement of the paths of
    the recognized files of the directory: none is left out and none is
    listed twice, although four patterns are globbed one after the
    other; so the catalog has as many tracks as the directory has
    recognized files, and no repeats when the directory has none. *)
Theorem catalog_lists_each_file_once host names :
  gpio_works host = true ->
  audio_library host = Some names ->
  let catalog := Luffy03.audio_files (snd (Luffy03.main host)) in
  Permutation catalog (map library_path (filter recognized names))
  /\ List.length catalog = List.length (filter recognized names)
  /\ (NoDup names -> NoDup catalog).
Proof.
  intros Hg Hl catalog. unfold catalog.
  rewrite (loaded_catalog_03 host names Hg Hl).
  pose proof (loaded_is_recognized names) as P.
  split; [exact P|]. split.
  - rewrite (Permutation_length P). apply length_map.
  - intros Hn. apply (Permutation_NoDup (Permutation_sym P)).
    apply library_paths_distinct. now apply NoDup_filter.
Qed.

Lemma catalog_lists_each_file_once_witness :
  List.length (Luffy03.audio_files start03) = 4%nat
  /\ NoDup (Luffy03.audio_files start03).
Proof.
  pose proof (catalog_lists_each_file_once demo_host
                ["two.mp3"; "notes.txt"; "one.MP3"; "three.wav";
                 "four.m4a"]%string eq_refl eq_refl) as (_ & Hlen & Hnd).
  split; [exact Hlen|].
  apply Hnd. repeat constructor; cbn; intuition discriminate.
Defined.

(** ** luffy01 from start-up on *)

Ltac unfold01_main :=
  cbv beta delta
    [Luffy01Main.main Luffy01Main.__init__ Luffy01Main.run
     Luffy01Main.setup_gpio Luffy01Main.load_audio_files
     Luffy01.start_playback Luffy01.stop_playback Luffy01.update_display
     Luffy01.get_player_command Luffy01.current_file Luffy01.sys
     Luffy01.logger try_except bind gets modify ret raise].

(** Like [run_all], but a hypothesis that decides a branch is used before
    any new case split. *)
Ltac run_cases :=
  repeat (cbn; first [ use_hyp | branch ]); cbn.

Lemma process_flag_start host env mixer :
  fst (Luffy01Main.main host env mixer) = Return tt ->
  Luffy01Main.process_flag (snd (Luffy01Main.main host env mixer)).
Proof.
  unfold Luffy01Main.process_flag. unfold01_main.
  destruct (font_found host), (gpio_works host),
    (audio_library host) as [names|];
    try (cbn; discriminate);
    destruct (glob_sorted Luffy01Main.pattern names) as [|f files];
    try (cbn; discriminate);
    run_cases; reflexivity.
Qed.

Lemma process_flag_kept env b s :
  Luffy01Main.process_flag s -> Luffy01Main.process_flag (Luffy01.step env b s).
Proof.
  unfold Luffy01Main.process_flag. intros H.
  destruct (Luffy01.is_playing s) eqn:Ep;
    destruct (Luffy01.audio_process s) eqn:Ea; try discriminate H;
    destruct b; unfold01; run_cases; rewrite ?Ep, ?Ea; reflexivity.
Qed.

(** X20.  luffy01: in every state reached from start-up by button
    presses, whatever the operating system refuses, [is_playing] is set
    exactly when the controller holds a player process. *)
Theorem playing_means_a_process s :
  Luffy01Main.reachable s ->
  Luffy01.is_playing s = true <-> Luffy01.audio_process s <> None.
Proof.
  intros H.
  assert (F : Luffy01Main.process_flag s).
  { induction H as [host env mixer Hok | env b s _ IH].
    - now apply process_flag_start.
    - now apply process_flag_kept. }
  unfold Luffy01Main.process_flag in F. rewrite F.
  destruct (Luffy01.audio_process s); split; congruence.
Qed.

Lemma playing_means_a_process_witness :
  let s := Luffy01Main.steps
             [(fun _ => false, Next); (fun _ => true, PlayPause);
              (fun _ => false, VolumeUp)]
             (snd (Luffy01Main.main demo_host (fun _ => false) 80)) in
  Luffy01.is_playing s = true <-> Luffy01.audio_process s <> None.
Proof.
  cbv zeta. apply playing_means_a_process.
  do 3 apply Luffy01Main.reachable_step.
  apply Luffy01Main.reachable_start. reflexivity.
Defined.

(** *** The process and the current track *)

Lemma after_last_dot_cut cur s :
  Luffy01.after_last_dot cur s = cur
  \/ exists pre, s = (pre ++ "." ++ Luffy01.after_last_dot cur s)%string.
Proof.
  revert cur. induction s as [|c r IH]; intros cur; [now left|].
  cbn [Luffy01.after_last_dot].
  destruct (Ascii.eqb_spec c ".") as [-> | Hc].
  - right. destruct (IH r) as [E | (pre & E)].
    + exists ""%string. rewrite E. reflexivity.
    + exists (String "." pre). cbn in *. congruence.
  - destruct (IH cur) as [E | (pre & E)]; [now left|].
    right. exists (String c pre). cbn in *. congruence.
Qed.

Lemma endswith_append pre suffix :
  Luffy01.endswith (pre ++ suffix) suffix = true.
Proof.
  induction pre as [|c pre IH].
  - destruct suffix; cbn; [reflexivity|].
    now rewrite Ascii.eqb_refl, String.eqb_refl.
  - cbn [append Luffy01.endswith]. rewrite IH. apply orb_true_r.
Qed.

(** For a path that is not the bare word, the two tests of the script for
    an MP3 agree: the text after the last dot is [mp3] only if the path
    ends in [.mp3]. *)
Lemma mp3_tests_agree path :
  path <> "mp3"%string ->
  Luffy01.after_last_dot path path = "mp3"%string ->
  Luffy01.endswith path ".mp3" = true.
Proof.
  intros Hne H. destruct (after_last_dot_cut path path) as [E | (pre & E)].
  - congruence.
  - rewrite H in E. rewrite E. apply endswith_append.
Qed.

Ltac tuned_done D T :=
  first
    [ exact T
    | exact I
    | repeat (match goal with
              | H : py_index _ _ = _ |- _ => rewrite H
              | H : String.eqb _ _ = _ |- _ => rewrite H
              end; cbn);
      reflexivity
    | cbn in T; discriminate T
    | match goal with
      | H : py_index _ _ = Some ?f |- _ =>
          rewrite H; cbn in T |- *;
          destruct (String.eqb
                      (Luffy01.after_last_dot (Luffy01.lower f)
                         (Luffy01.lower f)) "mp3") eqn:E;
          [ exfalso; apply String.eqb_eq in E;
            apply mp3_tests_agree in E; [congruence | now apply D]
          | exact T ]
      end ].

Lemma tuned_kept env b s :
  Luffy01Main.willing env ->
  Luffy01Main.process_flag s ->
  (forall f, py_index (Luffy01.audio_files s) (Luffy01.current_track_index s)
             = Some f -> Luffy01.lower f <> "mp3"%string) ->
  Luffy01Main.tuned s ->
  Luffy01Main.tuned (Luffy01.step env b s).
Proof.
  unfold Luffy01Main.tuned, Luffy01Main.process_flag, Luffy01Main.command_for.
  intros W F D T.
  destruct (Luffy01.is_playing s) eqn:Ep;
    destruct (Luffy01.audio_process s) eqn:Ea; try discriminate F;
    destruct b; unfold01; rewrite ?W; run_cases; rewrite ?W; run_cases;
    unfold Luffy01Main.command_for; run_cases; tuned_done D T.
Qed.

Lemma catalog_kept_01 env b s :
  Luffy01.audio_files (Luffy01.step env b s) = Luffy01.audio_files s.
Proof. destruct b; unfold01; run_cases; reflexivity. Qed.

Lemma py_index_In {A} (l : list A) (i : Z) (x : A) :
  py_index l i = Some x -> In x l.
Proof.
  unfold py_index.
  destruct (0 <=? i); [apply nth_error_In|].
  destruct (- Z.of_nat (List.length l) <=? i); [apply nth_error_In|].
  discriminate.
Qed.

(** No path of the catalog is the bare word [mp3]: each starts with the
    directory. *)
Lemma catalog_paths_01 host env mixer :
  Forall (fun f => Luffy01.lower f <> "mp3"%string)
    (Luffy01.audio_files (snd (Luffy01Main.main host env mixer))).
Proof.
  assert (G : forall names,
             Forall (fun f => Luffy01.lower f <> "mp3"%string)
               (glob_sorted Luffy01Main.pattern names)).
  { intros names. apply Forall_forall. intros f Hf.
    apply (Permutation_in _ (Permutation_sym (sorted_perm _))) in Hf.
    apply in_map_iff in Hf as (n & <- & _). cbn. discriminate. }
  unfold01_main.
  destruct (font_found host), (gpio_works host),
    (audio_library host) as [names|];
    try (cbn; constructor);
    specialize (G names);
    destruct (glob_sorted Luffy01Main.pattern names) as [|f files];
    try (cbn; constructor);
    run_cases; exact G.
Qed.

Lemma tuned_start host env mixer :
  Luffy01Main.tuned (snd (Luffy01Main.main host env mixer)).
Proof.
  unfold Luffy01Main.tuned, Luffy01Main.command_for. unfold01_main.
  destruct (font_found host), (gpio_works host),
    (audio_library host) as [names|];
    try (cbn; exact I);
    destruct (glob_sorted Luffy01Main.pattern names) as [|f files];
    try (cbn; exact I);
    run_cases; try exact I; reflexivity.
Qed.

(** X21.  luffy01: as long as the operating system does what the button
    callbacks ask of it, the player process, when there is one, is the
    command [get_player_command] builds for the track at the current
    index at the current volume: Next and Play/Pause start the current
    track, and a volume press restarts an MP3 at the new scale. *)
Theorem process_plays_current_track host env mixer bs cmd :
  fst (Luffy01Main.main host env mixer) = Return tt ->
  Forall (fun x => Luffy01Main.willing (fst x)) bs ->
  let s := Luffy01Main.steps bs (snd (Luffy01Main.main host env mixer)) in
  Luffy01.audio_process s = Some cmd ->
  exists f,
    py_index (Luffy01.audio_files s) (Luffy01.current_track_index s) = Some f
    /\ cmd = Luffy01Main.command_for (Luffy01.volume s) f
    /\ Luffy01Main.played cmd = f.
Proof.
  intros Hok Hw.
  set (s0 := snd (Luffy01Main.main host env mixer)).
  assert (Inv : Luffy01Main.process_flag s0 /\ Luffy01Main.tuned s0
                /\ Forall (fun f => Luffy01.lower f <> "mp3"%string)
                     (Luffy01.audio_files s0)).
  { split; [now apply process_flag_start|].
    split; [apply tuned_start | apply catalog_paths_01]. }
  clearbody s0. clear Hok. revert s0 Inv.
  induction Hw as [|[e b] bs W _ IH]; intros s0 (F & T & D).
  - cbn. intros Hc. unfold Luffy01Main.tuned in T. rewrite Hc in T.
    destruct (py_index (Luffy01.audio_files s0)
                (Luffy01.current_track_index s0)) as [f|];
      [|discriminate T].
    cbn in T. injection T as <-. exists f. split; [reflexivity|].
    split; [reflexivity|].
    unfold Luffy01Main.command_for.
    destruct (String.eqb _ _); reflexivity.
  - cbn [Luffy01Main.steps]. apply IH.
    split; [now apply process_flag_kept|]. split.
    + apply tuned_kept; try assumption.
      intros f Hf. apply py_index_In in Hf.
      now apply (proj1 (Forall_forall _ _) D).
    + now rewrite catalog_kept_01.
Qed.

Lemma process_plays_current_track_witness :
  let s := Luffy01Main.steps
             [(fun _ => false, Next); (fun _ => false, Next);
              (fun _ => false, VolumeUp)]
             (snd (Luffy01Main.main demo_host (fun _ => false) 80)) in
  exists f,
    py_index (Luffy01.audio_files s) (Luffy01.current_track_index s) = Some f
    /\ Luffy01.mpg123 55 "audio_library/two.mp3"
       = Luffy01Main.command_for (Luffy01.volume s) f
    /\ Luffy01Main.played (Luffy01.mpg123 55 "audio_library/two.mp3") = f.
Proof.
  assert (W : Forall (fun x => Luffy01Main.willing (fst x))
                [(fun _ : Luffy01.sys_call => false, Next);
                 (fun _ : Luffy01.sys_call => false, Next);
                 (fun _ : Luffy01.sys_call => false, VolumeUp)])
    by (repeat (constructor; [intros c; reflexivity|]); constructor).
  exact (process_plays_current_track demo_host (fun _ => false) 80
           [(fun _ => false, Next); (fun _ => false, Next);
            (fun _ => false, VolumeUp)]
           (Luffy01.mpg123 55 "audio_library/two.mp3")
           eq_refl W eq_refl).
Defined.

(** *** Reachable states of luffy01 *)

Lemma start_in_range_01 host env mixer :
  fst (Luffy01Main.main host env mixer) = Return tt ->
  in_range (Luffy01.audio_files (snd (Luffy01Main.main host env mixer)))
    (Luffy01.current_track_index (snd (Luffy01Main.main host env mixer)))
  /\ 0 <= Luffy01.volume (snd (Luffy01Main.main host env mixer)) <= 100.
Proof.
  unfold in_range. unfold01_main.
  destruct (font_found host), (gpio_works host),
    (audio_library host) as [names|];
    try (cbn; discriminate);
    destruct (glob_sorted Luffy01Main.pattern names) as [|f files];
    try (cbn; discriminate);
    intros _; run_cases; cbn [List.length]; lia.
Qed.

Lemma step_in_range_01 env b s :
  in_range (Luffy01.audio_files s) (Luffy01.current_track_index s)
  /\ 0 <= Luffy01.volume s <= 100 ->
  in_range (Luffy01.audio_files (Luffy01.step env b s))
    (Luffy01.current_track_index (Luffy01.step env b s))
  /\ 0 <= Luffy01.volume (Luffy01.step env b s) <= 100.
Proof.
  intros [Hi Hv].
  pose proof (in_range_nonempty _ _ Hi) as Hne.
  pose proof (length_eqb_nonempty _ Hne) as Hlen.
  pose proof (mod_in_range _ (Luffy01.current_track_index s) Hne) as Hi'.
  rewrite catalog_kept_01.
  destruct b; unfold01; run_cases; split; try assumption; lia.
Qed.

(** X26.  luffy01: in every state reached from a completed start-up by
    button presses, whatever the operating system refuses, the catalog is
    not empty, the index names one of its tracks and the volume is within
    0..100. *)
Theorem reachable_invariant_01 s :
  Luffy01Main.reachable s ->
  Luffy01.audio_files s <> []
  /\ in_range (Luffy01.audio_files s) (Luffy01.current_track_index s)
  /\ 0 <= Luffy01.volume s <= 100.
Proof.
  intros H.
  assert (I : in_range (Luffy01.audio_files s) (Luffy01.current_track_index s)
              /\ 0 <= Luffy01.volume s <= 100).
  { induction H as [host env mixer Hok | env b s _ IH].
    - now apply start_in_range_01.
    - now apply step_in_range_01. }
  destruct I as [Hi Hv].
  split; [exact (in_range_nonempty _ _ Hi) | split; assumption].
Qed.

Lemma reachable_invariant_01_witness :
  let s := Luffy01Main.steps
             [(fun _ => true, Next); (fun _ => false, VolumeDown);
              (fun _ => false, Next)]
             (snd (Luffy01Main.main demo_host (fun _ => false) 80)) in
  Luffy01.audio_files s <> []
  /\ in_range (Luffy01.audio_files s) (Luffy01.current_track_index s)
  /\ 0 <= Luffy01.volume s <= 100.
Proof.
  cbv zeta. apply reachable_invariant_01.
  do 3 apply Luffy01Main.reachable_step.
  apply Luffy01Main.reachable_start. reflexivity.
Defined.

(** *** Start-up and refusals of the operating system in luffy01 *)

(** X22.  luffy01 starts the first track by itself: when start-up gets to
    the end, the index is 0, and, if the process could be started, the
    player is playing the first file of the catalog at volume 50 and the
    last frame drawn shows it in green; if it could not, the error is
    logged and the script goes on, stopped and without a process. *)
Theorem luffy01_starts_the_first_track host env mixer :
  fst (Luffy01Main.main host env mixer) = Return tt ->
  let s := snd (Luffy01Main.main host env mixer) in
  Luffy01.current_track_index s = 0
  /\ Luffy01.volume s = 50
  /\ exists f,
       hd_error (Luffy01.audio_files s) = Some f
       /\ if env Luffy01.Popen
          then Luffy01.is_playing s = false
               /\ Luffy01.audio_process s = None
               /\ hd_error (Luffy01.log s)
                  = Some {| levelname := ERROR;
                            msg := ErrorStartingPlayback OSError |}
          else Luffy01.is_playing s = true
               /\ Luffy01.audio_process s
                  = Some (Luffy01Main.command_for 50 f)
               /\ hd_error (Luffy01.display s)
                  = Some {| track_name := path_name f; green := true;
                            shown_volume := 50; time_line := false |}.
Proof.
  unfold Luffy01Main.command_for. unfold01_main.
  destruct (font_found host), (gpio_works host),
    (audio_library host) as [names|];
    try (cbn; discriminate);
    destruct (glob_sorted Luffy01Main.pattern names) as [|f files];
    try (cbn; discriminate);
    intros _; destruct (env Luffy01.Popen) eqn:Ep;
    run_cases; rewrite ?Ep; run_cases;
    (split; [reflexivity|]); (split; [reflexivity|]);
    exists f; repeat split;
    repeat match goal with
           | H : String.eqb _ _ = _ |- _ => rewrite H
           end; reflexivity.
Qed.

Lemma luffy01_starts_the_first_track_witness :
  Luffy01.audio_process (snd (Luffy01Main.main demo_host (fun _ => false) 80))
  = Some (Luffy01.mpg123 50 "audio_library/one.MP3").
Proof.
  destruct (luffy01_starts_the_first_track demo_host (fun _ => false) 80
              eq_refl) as (_ & _ & f & Hf & _ & Hp & _).
  injection Hf as <-. exact Hp.
Defined.

(** X23.  luffy01: when [terminate] raises, the player process stays.  A
    Play/Pause press then changes nothing but the log (the error reaches
    [handle_button]); a Next press still moves the index and draws the new
    track in green (the error is caught inside [start_playback]), while
    the process goes on playing the old one. *)
Theorem refused_terminate_keeps_the_process env s cmd f :
  env Luffy01.Terminate = true ->
  Luffy01.is_playing s = true ->
  Luffy01.audio_process s = Some cmd ->
  py_index (Luffy01.audio_files s)
    ((Luffy01.current_track_index s + 1)
       mod Z.of_nat (List.length (Luffy01.audio_files s))) = Some f ->
  (let s' := Luffy01.step env PlayPause s in
   Luffy01.is_playing s' = true
   /\ Luffy01.audio_process s' = Some cmd
   /\ Luffy01.current_track_index s' = Luffy01.current_track_index s
   /\ Luffy01.display s' = Luffy01.display s
   /\ Luffy01.log s'
      = {| levelname := ERROR; msg := ErrorHandlingButtonPress OSError |}
          :: Luffy01.log s)
  /\ (let s' := Luffy01.step env Next s in
      Luffy01.is_playing s' = true
      /\ Luffy01.audio_process s' = Some cmd
      /\ Luffy01.current_track_index s'
         = (Luffy01.current_track_index s + 1)
             mod Z.of_nat (List.length (Luffy01.audio_files s))
      /\ Luffy01.display s'
         = {| track_name := path_name f; green := true;
              shown_volume := Luffy01.volume s; time_line := false |}
             :: Luffy01.display s).
Proof.
  intros Ht Ep Ea Hf.
  assert (Hn : (Z.of_nat (List.length (Luffy01.audio_files s)) =? 0) = false).
  { destruct (Luffy01.audio_files s); [|reflexivity].
    apply py_index_In in Hf. destruct Hf. }
  split; unfold01; run_cases; rewrite ?Ht; run_cases; repeat split;
    rewrite ?Ep; first [assumption | reflexivity].
Qed.

Lemma refused_terminate_keeps_the_process_witness :
  let s := snd (Luffy01Main.main demo_host (fun _ => false) 80) in
  let s' := Luffy01.step
              (fun c => match c with Luffy01.Terminate => true | _ => false end)
              Next s in
  Luffy01.audio_process s' = Some (Luffy01.mpg123 50 "audio_library/one.MP3")
  /\ Luffy01.current_track_index s' = 1.
Proof.
  cbv zeta.
  destruct (refused_terminate_keeps_the_process
              (fun c => match c with Luffy01.Terminate => true | _ => false end)
              (snd (Luffy01Main.main demo_host (fun _ => false) 80))
              (Luffy01.mpg123 50 "audio_library/one.MP3")
              "audio_library/three.wav"
              eq_refl eq_refl eq_refl eq_refl) as (_ & _ & Hp & Hi & _).
  split; [exact Hp | exact Hi].
Defined.

(** *** What luffy01 takes for an audio file *)

Lemma fnmatch_only_star s : fnmatch [Star] s = true.
Proof.
  induction s as [|c r IH]; [reflexivity|].
  rewrite fnmatch_star_cons, IH. apply orb_true_r.
Qed.

Lemma append_assoc (a b c : string) :
  ((a ++ b) ++ c)%string = (a ++ (b ++ c))%string.
Proof. induction a as [|x a IH]; cbn; [reflexivity | now rewrite IH]. Qed.

Lemma pattern01_shape name :
  fnmatch Luffy01Main.pattern name = true
  <-> exists pre x y z tail,
        name = (pre ++ "." ++ String x (String y (String z tail)))%string
        /\ in_class x "mwMW" = true
        /\ in_class y "aApP" = true
        /\ in_class z "vV3" = true.
Proof.
  unfold Luffy01Main.pattern. rewrite fnmatch_star. split.
  - intros (pre & suf & -> & H).
    destruct suf as [|d [|x [|y [|z tail]]]];
      cbn [fnmatch] in H; rewrite ?andb_false_r in H; try discriminate H.
    apply andb_true_iff in H as [Hd H].
    apply andb_true_iff in H as [Hx H].
    apply andb_true_iff in H as [Hy H].
    apply andb_true_iff in H as [Hz _].
    apply Ascii.eqb_eq in Hd. subst d.
    now exists pre, x, y, z, tail.
  - intros (pre & x & y & z & tail & -> & Hx & Hy & Hz).
    exists pre, ("." ++ String x (String y (String z tail)))%string.
    split; [reflexivity|].
    cbn [fnmatch append]. rewrite Hx, Hy, Hz.
    cbn [andb]. rewrite Ascii.eqb_refl. cbn [andb].
    apply fnmatch_only_star.
Qed.

Lemma classes01 x :
  in_class x "mwMW"
  = Ascii.eqb (Luffy01.lower_char x) "m" || Ascii.eqb (Luffy01.lower_char x) "w"
  /\ in_class x "aApP"
     = Ascii.eqb (Luffy01.lower_char x) "a"
       || Ascii.eqb (Luffy01.lower_char x) "p"
  /\ in_class x "vV3"
     = Ascii.eqb (Luffy01.lower_char x) "v"
       || Ascii.eqb (Luffy01.lower_char x) "3".
Proof. destruct x as [[] [] [] [] [] [] [] []]; repeat split. Qed.

(** X24.  The single pattern of luffy01 is looser than its comment
    ("both WAV and MP3"): it takes every name with an extension made of
    m or w, then a or p, then v or 3, in either letter case (so mp3 and
    wav, but also mav, wp3, ...), and every name that goes on after such
    an extension (such as [song.mp3.bak]). *)
Theorem pattern_of_luffy01_is_loose name :
  (has_extension
     ["mp3"; "wav"; "mav"; "ma3"; "mpv"; "wa3"; "wpv"; "wp3"]%string name ->
   fnmatch Luffy01Main.pattern name = true)
  /\ (fnmatch Luffy01Main.pattern name = true ->
      forall rest, fnmatch Luffy01Main.pattern (name ++ rest) = true).
Proof.
  split.
  - intros (stem & e & -> & Hin).
    assert (H3 : exists a b c,
               Luffy01.lower e = String a (String b (String c ""))
               /\ (a = "m" \/ a = "w")%char /\ (b = "a" \/ b = "p")%char
               /\ (c = "v" \/ c = "3")%char).
    { cbn in Hin.
      destruct Hin as [H|[H|[H|[H|[H|[H|[H|[H|[]]]]]]]]]; rewrite <- H;
        do 3 eexists; (split; [reflexivity|]); auto. }
    destruct H3 as (a & b & c & E & Ha & Hb & Hc).
    apply lower_length3 in E as (x & y & z & -> & Hx & Hy & Hz).
    apply pattern01_shape. exists stem, x, y, z, ""%string.
    split; [reflexivity|].
    destruct (classes01 x) as (-> & _ & _).
    destruct (classes01 y) as (_ & -> & _).
    destruct (classes01 z) as (_ & _ & ->).
    rewrite Hx, Hy, Hz.
    destruct Ha as [-> | ->], Hb as [-> | ->], Hc as [-> | ->];
      repeat split.
  - intros H rest.
    apply pattern01_shape in H
      as (pre & x & y & z & tail & -> & Hx & Hy & Hz).
    apply pattern01_shape. exists pre, x, y, z, (tail ++ rest)%string.
    split; [|auto]. rewrite append_assoc. reflexivity.
Qed.

Lemma pattern_of_luffy01_is_loose_witness :
  fnmatch Luffy01Main.pattern "take.WP3" = true
  /\ fnmatch Luffy01Main.pattern "song.mp3.bak" = true.
Proof.
  split.
  - apply (proj1 (pattern_of_luffy01_is_loose "take.WP3")).
    exists "take"%string, "WP3"%string. split; [reflexivity|].
    cbn. auto 10.
  - apply (proj2 (pattern_of_luffy01_is_loose "song.mp3")).
    apply (proj1 (pattern_of_luffy01_is_loose "song.mp3")).
    exists "song"%string, "mp3"%string. split; [reflexivity|].
    cbn. auto.
Defined.
